(** * Image-to-PDF converter: layout calculator and conversion pipeline

    A shallow embedding of the core of the application component: the pure
    layout function [calculateImageDimensions] and the handlers of [App]
    ([handleConvert], [handleReset], ...), together with the properties the
    specification states about them.

    Numbers.  TypeScript's [number] is modelled by the rationals [Q] with
    exact arithmetic, following the specification's data model ("all
    dimensions are positive reals").  Rounding of the underlying binary64
    operations is not part of this model; equalities between computed
    quantities are stated with [==] ([Qeq]). *)

From stdpp Require Import gmap strings list.
From Stdlib Require Import QArith Qminmax Lqa Lia.

Local Open Scope Q_scope.

(** ** types.ts *)

Inductive AppStatus := IDLE | FILES_SELECTED | CONVERTING | SUCCESS.

Inductive PageSize := a4 | letter | a3 | a5.
Inductive Orientation := portrait | landscape.
Inductive ImageFit := fit | original | fill.

Record ConversionOptions := {
  pageSize : PageSize;
  orientation : Orientation;
  imageFit : ImageFit
}.

(** [Partial<ConversionOptions>] and the spread [{ ...prev, ...newOptions }]. *)
Record PartialOptions := {
  newPageSize : option PageSize;
  newOrientation : option Orientation;
  newImageFit : option ImageFit
}.

Definition mergeOptions (prev : ConversionOptions) (newOptions : PartialOptions)
    : ConversionOptions :=
  {| pageSize := default (pageSize prev) (newPageSize newOptions);
     orientation := default (orientation prev) (newOrientation newOptions);
     imageFit := default (imageFit prev) (newImageFit newOptions) |}.

(** ** The layout calculator *)

Module Layout.

(** The object [{ width, height, x, y }] returned by the calculator. *)
Record Dimensions := { width : Q; height : Q; x : Q; y : Q }.

Definition margin : Q := 10.
Definition pixelToMm : Q := 352778 # 1000000.

Definition availableWidth (pageWidth : Q) : Q := pageWidth - margin * 2.
Definition availableHeight (pageHeight : Q) : Q := pageHeight - margin * 2.

(** The [scale] local of the ['fit'] branch. *)
Definition fitScale (imgWidth imgHeight pageWidth pageHeight : Q) : Q :=
  let scaleX := availableWidth pageWidth / imgWidth in
  let scaleY := availableHeight pageHeight / imgHeight in
  Qmin scaleX scaleY.

Definition calculateImageDimensions
    (imgWidth imgHeight pageWidth pageHeight : Q) (imageFit : ImageFit)
    : Dimensions :=
  match imageFit with
  | fit =>
      let scale := fitScale imgWidth imgHeight pageWidth pageHeight in
      let width := imgWidth * scale in
      let height := imgHeight * scale in
      {| width := width; height := height;
         x := (pageWidth - width) / 2;
         y := (pageHeight - height) / 2 |}
  | fill =>
      {| width := availableWidth pageWidth;
         height := availableHeight pageHeight;
         x := margin; y := margin |}
  | original =>
      let width := Qmin (imgWidth * pixelToMm) (availableWidth pageWidth) in
      let height := Qmin (imgHeight * pixelToMm) (availableHeight pageHeight) in
      {| width := width; height := height;
         x := (pageWidth - width) / 2;
         y := (pageHeight - height) / 2 |}
  end.

End Layout.

(** ** Browser and library services used by the pipeline

    The file reader, the image decoder, the canvas and the jsPDF library are
    external to the repository.  They are taken as parameters: a value of
    [Services] fixes what each of them answers. *)

Module Dom.

Record File := { name : string; type : string }.

(** A decoded image; [src] is the data URL it was loaded from. *)
Record HTMLImageElement := { src : string; width : Q; height : Q }.

(** A canvas element: its size and what [drawImage] has put on it. *)
Record Canvas := {
  canvas_width : Q;
  canvas_height : Q;
  drawn : option HTMLImageElement
}.

Definition createCanvas (w h : Q) : Canvas :=
  {| canvas_width := w; canvas_height := h; drawn := None |}.

Definition drawImage (c : Canvas) (img : HTMLImageElement) : Canvas :=
  {| canvas_width := canvas_width c; canvas_height := canvas_height c;
     drawn := Some img |}.

End Dom.

Module JsPdf.

(** One [addImage] call: data, format tag and placement. *)
Record PlacedImage := {
  imageData : string;
  imageFormat : string;
  at_x : Q; at_y : Q; at_width : Q; at_height : Q
}.

(** Calls received by a document, oldest first. *)
Inductive Call :=
| CallNew
| CallAddPage
| CallAddImage (img : PlacedImage).

(** A jsPDF document: the size of its pages, the pages (the last one is the
    current page) with the images placed on each, and the log of the calls
    made on it.  The log is ghost state used to count calls. *)
Record jsPDF := {
  pageWidth : Q;
  pageHeight : Q;
  pages : list (list PlacedImage);
  calls : list Call
}.

(** [new jsPDF({orientation, unit: 'mm', format})]: a document with one
    empty page of the size [dims]. *)
Definition new (dims : Q * Q) : jsPDF :=
  {| pageWidth := fst dims; pageHeight := snd dims;
     pages := [ [] ]; calls := [CallNew] |}.

Definition addPage (pdf : jsPDF) : jsPDF :=
  {| pageWidth := pageWidth pdf; pageHeight := pageHeight pdf;
     pages := pages pdf ++ [ [] ];
     calls := calls pdf ++ [CallAddPage] |}.

(** Puts [img] on the current (last) page. *)
Fixpoint addToCurrent (img : PlacedImage) (ps : list (list PlacedImage))
    : list (list PlacedImage) :=
  match ps with
  | [] => []
  | [cur] => [cur ++ [img]]
  | p :: rest => p :: addToCurrent img rest
  end.

Definition addImage (pdf : jsPDF) (img : PlacedImage) : jsPDF :=
  {| pageWidth := pageWidth pdf; pageHeight := pageHeight pdf;
     pages := addToCurrent img (pages pdf);
     calls := calls pdf ++ [CallAddImage img] |}.

Definition numberOfPages (pdf : jsPDF) : nat := length (pages pdf).

Definition isAddPage (c : Call) : bool :=
  match c with CallAddPage => true | _ => false end.

Definition countAddPage (pdf : jsPDF) : nat :=
  length (List.filter isAddPage (calls pdf)).

End JsPdf.

(** What the environment answers.  [None] from [fileToBase64] or
    [loadImage] is a rejected promise; [getContext] is [false] when
    [canvas.getContext('2d')] returns [null]; [jspdf] is [None] when
    [window.jspdf] is not loaded, and otherwise gives the page size in
    millimetres that jsPDF reports for a format and orientation; [pdfName]
    stands for [name.replace(/\.(png|jpe?g|webp)$/i, '.pdf')] in
    [handleDownload]. *)
Record Services := {
  fileToBase64 : Dom.File → option string;
  loadImage : string → option Dom.HTMLImageElement;
  getContext : Dom.Canvas → bool;
  toDataURL : Dom.Canvas → string;
  jspdf : option (PageSize → Orientation → Q * Q);
  pdfName : string → string
}.

(** ** The [App] component *)

Module App.

Import Dom.

(** The browser state the handlers act on: the blob URL store
    ([URL.createObjectURL] / [URL.revokeObjectURL]), the alerts shown, the
    console, and the downloads started. *)
Record World := {
  blobs : gmap nat JsPdf.jsPDF;
  nextUrl : nat;
  alerts : list string;
  console : list string;
  downloads : list (nat * string)
}.

Definition emptyWorld : World :=
  {| blobs := ∅; nextUrl := 0; alerts := []; console := []; downloads := [] |}.

Definition alert (msg : string) (w : World) : World :=
  {| blobs := blobs w; nextUrl := nextUrl w; alerts := alerts w ++ [msg];
     console := console w; downloads := downloads w |}.

Definition console_error (msg : string) (w : World) : World :=
  {| blobs := blobs w; nextUrl := nextUrl w; alerts := alerts w;
     console := console w ++ [msg]; downloads := downloads w |}.

(** [URL.createObjectURL(blob)]: a URL never handed out before. *)
Definition createObjectURL (blob : JsPdf.jsPDF) (w : World) : nat * World :=
  (nextUrl w,
   {| blobs := <[nextUrl w := blob]> (blobs w); nextUrl := S (nextUrl w);
      alerts := alerts w; console := console w; downloads := downloads w |}).

Definition revokeObjectURL (url : nat) (w : World) : World :=
  {| blobs := delete url (blobs w); nextUrl := nextUrl w;
     alerts := alerts w; console := console w; downloads := downloads w |}.

Definition click_download (url : nat) (filename : string) (w : World) : World :=
  {| blobs := blobs w; nextUrl := nextUrl w; alerts := alerts w;
     console := console w; downloads := downloads w ++ [(url, filename)] |}.

(** The live handles: URLs created and not yet revoked. *)
Definition live (w : World) : gset nat := dom (blobs w).

(** The four [useState] cells of [App]. *)
Record Session := {
  status : AppStatus;
  files : list File;
  options : ConversionOptions;
  pdfBlobUrl : option nat
}.

Definition initialSession : Session :=
  {| status := IDLE; files := [];
     options := {| pageSize := a4; orientation := portrait; imageFit := fit |};
     pdfBlobUrl := None |}.

Definition setStatus (st : AppStatus) (s : Session) : Session :=
  {| status := st; files := files s; options := options s;
     pdfBlobUrl := pdfBlobUrl s |}.

Definition setFiles (fs : list File) (s : Session) : Session :=
  {| status := status s; files := fs; options := options s;
     pdfBlobUrl := pdfBlobUrl s |}.

Definition setOptions (o : ConversionOptions) (s : Session) : Session :=
  {| status := status s; files := files s; options := o;
     pdfBlobUrl := pdfBlobUrl s |}.

Definition setPdfBlobUrl (u : option nat) (s : Session) : Session :=
  {| status := status s; files := files s; options := options s;
     pdfBlobUrl := u |}.

Definition supportedTypes : list string :=
  ["image/png"; "image/jpeg"; "image/webp"].

Definition filteredFiles (s : Session) : list File :=
  filter (λ f, type f ∈ supportedTypes) (files s).

(** *** Effects of the conversion loop

    A computation acts on the world and either completes normally or
    throws (a rejected [await]). *)

Inductive Completion (A : Type) := Normal (a : A) | Throw.
Arguments Normal {A} a.
Arguments Throw {A}.

Definition M (A : Type) : Type := World → Completion A * World.

#[export] Instance M_ret : MRet M := λ A a w, (Normal a, w).

#[export] Instance M_bind : MBind M := λ A B k m w,
  match m w with
  | (Normal a, w') => k a w'
  | (Throw, w') => (Throw, w')
  end.

Definition await {A} (promise : option A) : M A :=
  λ w, (match promise with Some a => Normal a | None => Throw end, w).

Definition logError (msg : string) : M unit :=
  λ w, (Normal tt, console_error msg w).

Section Handlers.

Context (svc : Services).

(** The tail of a loop iteration, shared by the three branches: decode the
    (possibly re-encoded) data, compute the layout on the current page and
    add the image. *)
Definition placeImage (imageFit : ImageFit) (imageData imageFormat : string)
    (pdf : JsPdf.jsPDF) : M JsPdf.jsPDF :=
  img ← await (loadImage svc imageData);
  let pageWidth := JsPdf.pageWidth pdf in
  let pageHeight := JsPdf.pageHeight pdf in
  let d := Layout.calculateImageDimensions
             (width img) (height img) pageWidth pageHeight imageFit in
  mret (JsPdf.addImage pdf
          {| JsPdf.imageData := imageData; JsPdf.imageFormat := imageFormat;
             JsPdf.at_x := Layout.x d; JsPdf.at_y := Layout.y d;
             JsPdf.at_width := Layout.width d;
             JsPdf.at_height := Layout.height d |}).

(** The body of the [for] loop for index [i]. *)
Definition convertFile (imageFit : ImageFit) (i : nat) (file : File)
    (pdf : JsPdf.jsPDF) : M JsPdf.jsPDF :=
  let pdf := if decide (0 < i)%nat then JsPdf.addPage pdf else pdf in
  imageData ← await (fileToBase64 svc file);
  if decide (type file = "image/jpeg") then
    placeImage imageFit imageData "JPEG" pdf
  else if decide (type file = "image/webp") then
    webpImg ← await (loadImage svc imageData);
    let canvas := createCanvas (width webpImg) (height webpImg) in
    if getContext svc canvas then
      let canvas := drawImage canvas webpImg in
      placeImage imageFit (toDataURL svc canvas) "PNG" pdf
    else
      _ ← logError "Could not get canvas context for WebP conversion";
      mret pdf
  else
    placeImage imageFit imageData "PNG" pdf.

(** [for (let i = 0; i < filteredFiles.length; i++)], entered at index [i]
    with [rest] the files from index [i] on. *)
Fixpoint convertLoop (imageFit : ImageFit) (i : nat) (rest : list File)
    (pdf : JsPdf.jsPDF) : M JsPdf.jsPDF :=
  match rest with
  | [] => mret pdf
  | file :: rest' =>
      pdf' ← convertFile imageFit i file pdf;
      convertLoop imageFit (S i) rest' pdf'
  end.

(** The [try] block up to [pdf.output('blob')]. *)
Definition buildPdf (pageDims : PageSize → Orientation → Q * Q)
    (filtered : list File) (opts : ConversionOptions) : M JsPdf.jsPDF :=
  let pdf := JsPdf.new (pageDims (pageSize opts) (orientation opts)) in
  convertLoop (imageFit opts) 0 filtered pdf.

Definition handleFilesAdded (newFiles : list File) (s : Session) : Session :=
  setStatus FILES_SELECTED (setFiles (files s ++ newFiles) s).

Definition handleRemoveFile (indexToRemove : nat) (s : Session) : Session :=
  let updatedFiles := delete indexToRemove (files s) in
  let s := if decide (length updatedFiles = 0%nat) then setStatus IDLE s else s in
  setFiles updatedFiles s.

Definition handleOptionChange (newOptions : PartialOptions) (s : Session)
    : Session :=
  setOptions (mergeOptions (options s) newOptions) s.

Definition handleReset (s : Session) (w : World) : Session * World :=
  let s1 := setFiles [] s in
  let w1 := match pdfBlobUrl s with
            | Some url => revokeObjectURL url w
            | None => w
            end in
  (setStatus IDLE (setPdfBlobUrl None s1), w1).

Definition handleConvert (s : Session) (w : World) : Session * World :=
  let filtered := filteredFiles s in
  if decide (length filtered = 0%nat) then
    (s, alert "Please select at least one valid PNG, JPG, or WebP file." w)
  else
    match jspdf svc with
    | None =>
        (s, alert "PDF generation library is not loaded. Please check your internet connection and try again." w)
    | Some pageDims =>
        let s1 := setStatus CONVERTING s in
        match buildPdf pageDims filtered (options s) w with
        | (Normal pdf, w1) =>
            let blob := pdf in
            let (url, w2) := createObjectURL blob w1 in
            (setStatus SUCCESS (setPdfBlobUrl (Some url) s1), w2)
        | (Throw, w1) =>
            let w2 := console_error "Error converting to PDF:" w1 in
            let w3 := alert "An error occurred during conversion. Please try again." w2 in
            (setStatus FILES_SELECTED s1, w3)
        end
    end.

Definition handleDownload (s : Session) (w : World) : World :=
  match pdfBlobUrl s with
  | None => w
  | Some url =>
      let filename :=
        match filteredFiles s with
        | [f] => pdfName svc (name f)
        | _ => "converted-images.pdf"
        end in
      click_download url filename w
  end.

(** *** What the rendered component lets the user do

    [renderContent] shows the uploader in [IDLE], the file list with the
    remove, option and convert controls in [FILES_SELECTED], only a spinner
    in [CONVERTING], and the download and reset buttons in [SUCCESS].
    [offered] allows a remove at any index, which is more than the list
    shows. *)

Inductive Event :=
| FilesAdded (newFiles : list File)
| RemoveFile (index : nat)
| OptionChange (newOptions : PartialOptions)
| Convert
| Download
| Reset.

Definition offered (st : AppStatus) (e : Event) : bool :=
  match st, e with
  | IDLE, FilesAdded _ => true
  | FILES_SELECTED, (RemoveFile _ | OptionChange _ | Convert) => true
  | SUCCESS, (Download | Reset) => true
  | _, _ => false
  end.

Definition handle (e : Event) (s : Session) (w : World) : Session * World :=
  match e with
  | FilesAdded newFiles => (handleFilesAdded newFiles s, w)
  | RemoveFile i => (handleRemoveFile i s, w)
  | OptionChange o => (handleOptionChange o s, w)
  | Convert => handleConvert s w
  | Download => (s, handleDownload s w)
  | Reset => handleReset s w
  end.

(** Runs a sequence of user actions, each handler to completion; an action
    the current screen does not offer is ignored. *)
Fixpoint run (es : list Event) (s : Session) (w : World) : Session * World :=
  match es with
  | [] => (s, w)
  | e :: es' =>
      if offered (status s) e
      then let (s', w') := handle e s w in run es' s' w'
      else run es' s w
  end.

End Handlers.

End App.

(** ** What the services answer for one file

    The statements below speak of a read that fails, a decode that fails and
    a surface that cannot be obtained.  [answer] names these cases from the
    services' answers alone, following the order in which one loop iteration
    consults them. *)

Module Run.

Import Dom App.

Inductive Answer :=
| ReadFails
| DecodeFails
| NoSurface
| Decoded (imageData imageFormat : string) (img : HTMLImageElement).

Section Answers.

Context (svc : Services).

Definition decoded (imageData imageFormat : string) : Answer :=
  match loadImage svc imageData with
  | None => DecodeFails
  | Some img => Decoded imageData imageFormat img
  end.

Definition answer (file : File) : Answer :=
  match fileToBase64 svc file with
  | None => ReadFails
  | Some imageData =>
      if decide (type file = "image/jpeg") then decoded imageData "JPEG"
      else if decide (type file = "image/webp") then
        match loadImage svc imageData with
        | None => DecodeFails
        | Some webpImg =>
            let canvas := createCanvas (width webpImg) (height webpImg) in
            if getContext svc canvas
            then decoded (toDataURL svc (drawImage canvas webpImg)) "PNG"
            else NoSurface
        end
      else decoded imageData "PNG"
  end.

Definition failsb (file : File) : bool :=
  match answer file with
  | ReadFails | DecodeFails => true
  | _ => false
  end.

(** The image a decoded file puts on a page of size [pw] x [ph]. *)
Definition placed (mode : ImageFit) (pw ph : Q) (imageData imageFormat : string)
    (img : HTMLImageElement) : JsPdf.PlacedImage :=
  let d := Layout.calculateImageDimensions (width img) (height img) pw ph mode in
  {| JsPdf.imageData := imageData; JsPdf.imageFormat := imageFormat;
     JsPdf.at_x := Layout.x d; JsPdf.at_y := Layout.y d;
     JsPdf.at_width := Layout.width d; JsPdf.at_height := Layout.height d |}.

(** The content of the page of [file]: its image, or nothing. *)
Definition pageOf (mode : ImageFit) (pw ph : Q) (file : File)
    : list JsPdf.PlacedImage :=
  match answer file with
  | Decoded imageData imageFormat img =>
      [placed mode pw ph imageData imageFormat img]
  | _ => []
  end.

(** The calls a run over [fs] makes on its document: the creation, then for
    each file after the first a page append, followed by the file's image. *)
Definition callsFrom (mode : ImageFit) (pw ph : Q) (file : File)
    : list JsPdf.Call :=
  JsPdf.CallAddPage :: map JsPdf.CallAddImage (pageOf mode pw ph file).

Definition callsOf (mode : ImageFit) (pw ph : Q) (fs : list File)
    : list JsPdf.Call :=
  match fs with
  | [] => [JsPdf.CallNew]
  | first :: others =>
      JsPdf.CallNew :: map JsPdf.CallAddImage (pageOf mode pw ph first)
        ++ concat (map (callsFrom mode pw ph) others)
  end.

(** The document after the iterations for [rest], entered at a positive
    index with document [pdf], when no step fails. *)
Definition extended (mode : ImageFit) (pdf : JsPdf.jsPDF) (rest : list File)
    : JsPdf.jsPDF :=
  let pw := JsPdf.pageWidth pdf in
  let ph := JsPdf.pageHeight pdf in
  {| JsPdf.pageWidth := pw; JsPdf.pageHeight := ph;
     JsPdf.pages := JsPdf.pages pdf ++ map (pageOf mode pw ph) rest;
     JsPdf.calls :=
       JsPdf.calls pdf ++ concat (map (callsFrom mode pw ph) rest) |}.

(** The document of a run over [fs] in which no step fails: one page per
    file, in the order of [fs]. *)
Definition document (mode : ImageFit) (dims : Q * Q) (fs : list File)
    : JsPdf.jsPDF :=
  {| JsPdf.pageWidth := fst dims; JsPdf.pageHeight := snd dims;
     JsPdf.pages := map (pageOf mode (fst dims) (snd dims)) fs;
     JsPdf.calls := callsOf mode (fst dims) (snd dims) fs |}.

End Answers.

(** The handles a session holds: the stored one, if any. *)
Definition held (s : Session) : gset nat :=
  match pdfBlobUrl s with
  | Some url => {[ url ]}
  | None => ∅
  end.

(** Every live handle is the one the session holds, and a handle is held
    only on the success screen. *)
Definition singleOwner (s : Session) (w : World) : Prop :=
  live w = held s ∧ (pdfBlobUrl s ≠ None → status s = SUCCESS).

(** The parts of the world a conversion loop cannot touch. *)
Definition sameStore (w w' : World) : Prop :=
  blobs w' = blobs w ∧ nextUrl w' = nextUrl w ∧
  alerts w' = alerts w ∧ downloads w' = downloads w.

End Run.

(** ** Sample inputs *)

Module Samples.

Import Dom App.

Definition png1 : File := {| name := "one.png"; type := "image/png" |}.
Definition jpg1 : File := {| name := "two.jpg"; type := "image/jpeg" |}.
Definition webp1 : File := {| name := "three.webp"; type := "image/webp" |}.
Definition gif1 : File := {| name := "four.gif"; type := "image/gif" |}.
Definition badPng : File := {| name := "broken.png"; type := "image/png" |}.

Definition dataOf (f : File) : string := "data:" +:+ name f.

Definition a4mm (_ : PageSize) (o : Orientation) : Q * Q :=
  match o with portrait => (210, 297) | landscape => (297, 210) end.

(** Every read and decode succeeds (800x600 pixels), except the read of
    [badPng]; the canvas context is available iff [canvasOk]; the library
    is loaded iff [libLoaded]. *)
Definition services (canvasOk libLoaded : bool) : Services :=
  {| fileToBase64 := λ f, if decide (name f = "broken.png") then None else Some (dataOf f);
     loadImage := λ s, Some {| src := s; width := 800; height := 600 |};
     getContext := λ _, canvasOk;
     toDataURL := λ _, "data:canvas.png";
     jspdf := if libLoaded then Some a4mm else None;
     pdfName := λ n, n +:+ ".pdf" |}.

Definition selected (fs : list File) : Session :=
  handleFilesAdded fs initialSession.

(** A selection of three supported files and one that is filtered out. *)
Definition mixed : Session := selected [png1; gif1; webp1; jpg1].

End Samples.

(** ** Rectangles on a page *)

Module Geometry.

Import Layout.

(** Two results of the calculator that agree in every field. *)
Definition sameRect (r1 r2 : Dimensions) : Prop :=
  width r1 == width r2 ∧ height r1 == height r2 ∧
  x r1 == x r2 ∧ y r1 == y r2.



End Geometry.

(** ** The download name

    [name.replace(/\.(png|jpe?g|webp)$/i, '.pdf')] of [handleDownload]: a
    final [.png], [.jpg], [.jpeg] or [.webp], in any mix of upper and lower
    case, is replaced by [.pdf]; a name without such an ending is returned
    as it is.  Strings are matched from their last character backwards. *)

Module FileName.

Definition lowerAscii (c : Ascii.ascii) : Ascii.ascii :=
  let n := Ascii.nat_of_ascii c in
  if ((65 <=? n) && (n <=? 90))%nat then Ascii.ascii_of_nat (n + 32) else c.

(** [stripPrefixCI pat cs]: what follows [pat] at the head of [cs], the
    characters of [cs] compared in lower case. *)
Fixpoint stripPrefixCI (pat cs : list Ascii.ascii) : option (list Ascii.ascii) :=
  match pat, cs with
  | [], rest => Some rest
  | p :: pat', c :: cs' =>
      if Ascii.eqb (lowerAscii c) p then stripPrefixCI pat' cs' else None
  | _ :: _, [] => None
  end.

(** The four endings the pattern accepts, last character first. *)
Definition endings : list (list Ascii.ascii) :=
  map (λ e, rev (String.list_ascii_of_string e)) [".jpeg"; ".webp"; ".png"; ".jpg"].

Fixpoint stripEnding (pats : list (list Ascii.ascii)) (reversed : list Ascii.ascii)
    : option (list Ascii.ascii) :=
  match pats with
  | [] => None
  | pat :: pats' =>
      match stripPrefixCI pat reversed with
      | Some rest => Some rest
      | None => stripEnding pats' reversed
      end
  end.

Definition replaceExtension (name : string) : string :=
  match stripEnding endings (rev (String.list_ascii_of_string name)) with
  | Some rest => String.string_of_list_ascii (rev rest) +:+ ".pdf"
  | None => name
  end.

(** The name with every letter A-Z in lower case. *)
Definition lower (s : string) : string :=
  String.string_of_list_ascii (map lowerAscii (String.list_ascii_of_string s)).

End FileName.

(** ** The status transitions of the session *)

Module Flow.

(** The moves between screens: files are added on the idle screen; on the
    file list the user stays, empties the list or converts; the success
    screen is left only by a reset. *)
Definition allowed (before after : AppStatus) : bool :=
  match before, after with
  | IDLE, FILES_SELECTED => true
  | FILES_SELECTED, (FILES_SELECTED | IDLE | SUCCESS) => true
  | SUCCESS, (SUCCESS | IDLE) => true
  | _, _ => false
  end.

(** How many of the files are WebP images without a drawing surface. *)
Definition skipped (svc : Services) (fs : list Dom.File) : nat :=
  length (List.filter
            (λ f, match Run.answer svc f with Run.NoSurface => true | _ => false end)
            fs).

(** What holds of the session between two user actions: the spinner is
    off; the idle screen has no files and no handle; the file list has no
    handle; on the success screen the handle resolves to the document of the
    files and options now in the session. *)
Definition settled (svc : Services) (s : App.Session) (w : App.World) : Prop :=
  App.status s ≠ CONVERTING ∧
  (App.status s = IDLE → App.files s = [] ∧ App.pdfBlobUrl s = None) ∧
  (App.status s = FILES_SELECTED → App.pdfBlobUrl s = None) ∧
  (App.status s = SUCCESS →
     App.filteredFiles s ≠ [] ∧
     ∃ (url : nat) (pageDims : PageSize → Orientation → Q * Q),
       jspdf svc = Some pageDims ∧ App.pdfBlobUrl s = Some url ∧
       App.blobs w !! url =
         Some (Run.document svc (imageFit (App.options s))
                 (pageDims (pageSize (App.options s))
                    (orientation (App.options s)))
                 (App.filteredFiles s))).

(** The browser of [Samples.services], with the download name computed as
    the source does. *)
Definition browser (canvasOk libLoaded : bool) : Services :=
  {| fileToBase64 := fileToBase64 (Samples.services canvasOk libLoaded);
     loadImage := loadImage (Samples.services canvasOk libLoaded);
     getContext := getContext (Samples.services canvasOk libLoaded);
     toDataURL := toDataURL (Samples.services canvasOk libLoaded);
     jspdf := jspdf (Samples.services canvasOk libLoaded);
     pdfName := FileName.replaceExtension |}.

End Flow.

(** ** Properties of the layout calculator *)

Module LayoutFacts.

Import Layout.

Lemma available_width_eq (pageWidth : Q) : availableWidth pageWidth = pageWidth - 20.
Proof. reflexivity. Qed.

Lemma available_height_eq (pageHeight : Q) :
  availableHeight pageHeight = pageHeight - 20.
Proof. reflexivity. Qed.

Lemma fitScale_eq (iw ih pw ph : Q) :
  fitScale iw ih pw ph = Qmin ((pw - 20) / iw) ((ph - 20) / ih).
Proof. reflexivity. Qed.

(** In ['fit'] mode the scaled width never exceeds the available width. *)
Lemma fit_width_le (iw ih pw ph : Q) :
  0 < iw → iw * fitScale iw ih pw ph <= pw - 20.
Proof.
  intros Hiw. rewrite fitScale_eq.
  assert (Hx : iw * ((pw - 20) / iw) == pw - 20)
    by (apply Qmult_div_r; lra).
  rewrite <- Hx at 2.
  apply Qmult_le_l; [assumption | apply Q.le_min_l].
Qed.

Lemma fit_height_le (iw ih pw ph : Q) :
  0 < ih → ih * fitScale iw ih pw ph <= ph - 20.
Proof.
  intros Hih. rewrite fitScale_eq.
  assert (Hy : ih * ((ph - 20) / ih) == ph - 20)
    by (apply Qmult_div_r; lra).
  rewrite <- Hy at 2.
  apply Qmult_le_l; [assumption | apply Q.le_min_r].
Qed.



Lemma fitScale_nonzero (iw ih pw ph : Q) :
  0 < iw → 0 < ih → ¬ pw == 20 → ¬ ph == 20 → ¬ fitScale iw ih pw ph == 0.
Proof.
  intros Hiw Hih Hpw Hph. rewrite fitScale_eq.
  assert (Hd : ∀ a b, 0 < b → a / b == 0 → a == 0).
  { intros a b Hb E.
    rewrite <- (Qmult_div_r a b) by lra. rewrite E. ring. }
  destruct (Q.min_dec ((pw - 20) / iw) ((ph - 20) / ih)) as [E | E];
    rewrite E; intros Hz; apply Hd in Hz; try assumption; lra.
Qed.




(** The specification's scenario: one 800x600 image on an a4 page. *)
Example fit_a4_scenario :
  let r := calculateImageDimensions 800 600 210 297 fit in
  width r == 190 ∧ height r == 285 # 2 ∧ x r == 10 ∧ y r == 309 # 4.
Proof. cbv zeta. repeat split; reflexivity. Qed.

(** C2: in ['fill'] mode the result is exactly the margin box
    (x = 10, y = 10, width = pageWidth - 20, height = pageHeight - 20),
    whatever the image dimensions are. *)
Theorem fill_is_margin_box (iw ih pw ph : Q) :
  calculateImageDimensions iw ih pw ph fill
    = {| width := pw - 20; height := ph - 20; x := 10; y := 10 |}
  ∧ ∀ iw' ih' : Q,
      calculateImageDimensions iw' ih' pw ph fill
        = calculateImageDimensions iw ih pw ph fill.
Proof. split; reflexivity. Qed.

(** C3: in ['original'] mode each axis is the pixel size times 0.352778,
    clamped on its own to the available length, and the rectangle is centred
    on the full page.  The width does not depend on the heights, nor the
    height on the widths. *)
Theorem original_clamps_each_axis (iw ih pw ph : Q) :
  let r := calculateImageDimensions iw ih pw ph original in
  width r = Qmin (iw * (352778 # 1000000)) (pw - 20) ∧
  height r = Qmin (ih * (352778 # 1000000)) (ph - 20) ∧
  x r = (pw - width r) / 2 ∧ y r = (ph - height r) / 2 ∧
  width r <= pw - 20 ∧ height r <= ph - 20 ∧
  (∀ ih' ph' : Q,
     width (calculateImageDimensions iw ih' pw ph' original) = width r) ∧
  (∀ iw' pw' : Q,
     height (calculateImageDimensions iw' ih pw' ph original) = height r).
Proof.
  cbv zeta. repeat split; try reflexivity; cbn.
  - apply Q.le_min_r.
  - apply Q.le_min_r.
Qed.

(** Independent clamping can change the aspect ratio: a 1000x100 image on an
    a4 page is clamped in width only. *)
Example original_can_distort :
  let r := calculateImageDimensions 1000 100 210 297 original in
  width r == 190 ∧ height r == 352778 # 10000 ∧
  ¬ (width r / height r == 1000 / 100).
Proof.
  cbv zeta. repeat split; try reflexivity.
  vm_compute. discriminate.
Qed.

Lemma centred_within_available (page size : Q) :
  size <= page - 20 → (page - size) / 2 + size <= page.
Proof.
  intros H.
  assert (E : (page - size) / 2 + size == (page + size) / 2) by field.
  rewrite E. apply Qle_shift_div_r; lra.
Qed.

(** C4: for positive image dimensions and a page larger than the margins,
    the rectangle of ['fit'] and ['original'] stays on the page, and that of
    ['fill'] is exactly the margin-bounded area. *)
Theorem placement_stays_on_page (mode : ImageFit) (iw ih pw ph : Q) :
  0 < iw → 0 < ih → 20 < pw → 20 < ph →
  let r := calculateImageDimensions iw ih pw ph mode in
  match mode with
  | fill =>
      x r == 10 ∧ y r == 10 ∧ width r == pw - 20 ∧ height r == ph - 20 ∧
      x r + width r == pw - 10 ∧ y r + height r == ph - 10
  | fit | original =>
      x r + width r <= pw ∧ y r + height r <= ph
  end.
Proof.
  intros Hiw Hih Hpw Hph r. subst r. destruct mode; cbn.
  - split; apply centred_within_available;
      [apply fit_width_le | apply fit_height_le]; assumption.
  - split; apply centred_within_available; apply Q.le_min_r.
  - unfold availableWidth, availableHeight, margin.
    repeat split; try reflexivity; ring.
Qed.

Lemma placement_stays_on_page_witness :
  let r := calculateImageDimensions 800 600 210 297 fit in
  x r + width r <= 210 ∧ y r + height r <= 297.
Proof.
  apply (placement_stays_on_page fit 800 600 210 297); reflexivity.
Defined.



End LayoutFacts.

(** ** Properties of the conversion loop *)

Module LoopFacts.

Import Dom App Run.

Lemma sameStore_refl w : sameStore w w.
Proof. repeat split. Qed.

Lemma sameStore_trans w1 w2 w3 :
  sameStore w1 w2 → sameStore w2 w3 → sameStore w1 w3.
Proof.
  intros (?&?&?&?) (?&?&?&?). repeat split; congruence.
Qed.

Lemma addToCurrent_last (img : JsPdf.PlacedImage) ps cur :
  JsPdf.addToCurrent img (ps ++ [cur]) = ps ++ [cur ++ [img]].
Proof.
  induction ps as [|p ps IH]; [reflexivity|].
  cbn [app JsPdf.addToCurrent]. rewrite IH.
  destruct ps; reflexivity.
Qed.

Section WithServices.

Context (svc : Services).

(** One iteration, read off the services' answers. *)
Lemma convertFile_answer mode i file pdf w :
  convertFile svc mode i file pdf w =
    let pdf1 := if decide (0 < i)%nat then JsPdf.addPage pdf else pdf in
    match answer svc file with
    | ReadFails | DecodeFails => (Throw, w)
    | NoSurface =>
        (Normal pdf1,
         console_error "Could not get canvas context for WebP conversion" w)
    | Decoded imageData imageFormat img =>
        (Normal (JsPdf.addImage pdf1
                   (placed mode (JsPdf.pageWidth pdf) (JsPdf.pageHeight pdf)
                      imageData imageFormat img)), w)
    end.
Proof.
  unfold convertFile, answer, decoded, placeImage, placed.
  unfold mbind, M_bind, mret, M_ret, await, logError.
  destruct (fileToBase64 svc file) as [data|]; [|reflexivity].
  destruct (decide (0 < i)%nat) as [Hi|Hi]; cbv zeta;
  repeat case_decide;
  repeat match goal with
         | |- context [loadImage svc ?d] =>
             destruct (loadImage svc d) as [?|] eqn:?
         | |- context [getContext svc ?c] =>
             destruct (getContext svc c) eqn:?
         end; try reflexivity.
Qed.

(** [answer] in the services' own terms. *)
Lemma answer_ReadFails file :
  answer svc file = ReadFails ↔ fileToBase64 svc file = None.
Proof.
  unfold answer, decoded.
  destruct (fileToBase64 svc file) as [data|]; [|split; reflexivity].
  split; [|discriminate].
  intros H. exfalso. revert H.
  repeat case_decide;
  repeat match goal with
         | |- context [loadImage svc ?d] => destruct (loadImage svc d) as [?|]
         | |- context [getContext svc ?c] => destruct (getContext svc c)
         end; discriminate.
Qed.

Lemma answer_NoSurface file :
  answer svc file = NoSurface ↔
  type file = "image/webp" ∧
  ∃ imageData webpImg,
    fileToBase64 svc file = Some imageData ∧
    loadImage svc imageData = Some webpImg ∧
    getContext svc (createCanvas (width webpImg) (height webpImg)) = false.
Proof.
  unfold answer, decoded. split.
  - intros H.
    destruct (fileToBase64 svc file) as [data|]; [|discriminate H].
    destruct (decide (type file = "image/jpeg")).
    { destruct (loadImage svc data); discriminate H. }
    destruct (decide (type file = "image/webp")) as [Hw|].
    2: { destruct (loadImage svc data); discriminate H. }
    destruct (loadImage svc data) as [webpImg|] eqn:Hd; [|discriminate H].
    destruct (getContext svc _) eqn:Hc.
    { destruct (loadImage svc (toDataURL svc _)); discriminate H. }
    split; [exact Hw|]. eexists _, _. repeat split; eassumption.
  - intros (Hw & data & webpImg & -> & Hd & Hc).
    rewrite decide_False by (rewrite Hw; discriminate).
    rewrite decide_True by exact Hw.
    rewrite Hd, Hc. reflexivity.
Qed.

(** A decode fails when the read succeeded and one of the [loadImage] calls
    the iteration makes is rejected. *)
Lemma answer_DecodeFails file :
  answer svc file = DecodeFails →
  ∃ imageData, fileToBase64 svc file = Some imageData ∧
    (loadImage svc imageData = None ∨
     ∃ webpImg, type file = "image/webp" ∧
       loadImage svc imageData = Some webpImg ∧
       loadImage svc
         (toDataURL svc
            (drawImage (createCanvas (width webpImg) (height webpImg)) webpImg))
         = None).
Proof.
  unfold answer, decoded.
  destruct (fileToBase64 svc file) as [data|]; [|discriminate].
  intros H. exists data. split; [reflexivity|].
  destruct (loadImage svc data) as [img|] eqn:Hd; [|left; reflexivity].
  right. exists img.
  destruct (decide (type file = "image/jpeg")); [discriminate H|].
  destruct (decide (type file = "image/webp")) as [Hw|]; [|discriminate H].
  destruct (getContext svc _); [|discriminate H].
  destruct (loadImage svc (toDataURL svc _)) eqn:Hd2; [discriminate H|].
  repeat split; assumption.
Qed.

Lemma extended_nil mode pdf : extended svc mode pdf [] = pdf.
Proof.
  destruct pdf. unfold extended. cbn. rewrite !app_nil_r. reflexivity.
Qed.

Lemma convertFile_world mode i file pdf w :
  sameStore w (snd (convertFile svc mode i file pdf w)).
Proof.
  rewrite convertFile_answer. cbv zeta.
  destruct (answer svc file); repeat split.
Qed.

Lemma convertFile_later mode i file pdf w :
  (0 < i)%nat → failsb svc file = false →
  ∃ w', convertFile svc mode i file pdf w
          = (Normal (extended svc mode pdf [file]), w').
Proof.
  intros Hi Hok. rewrite convertFile_answer. cbv zeta.
  rewrite decide_True by assumption.
  unfold failsb in Hok. unfold extended, callsFrom, pageOf. cbn [map concat].
  destruct (answer svc file); try discriminate; eexists.
  - unfold JsPdf.addPage. cbn. reflexivity.
  - unfold JsPdf.addImage, JsPdf.addPage. cbn.
    rewrite addToCurrent_last. cbn.
    rewrite <- app_assoc. reflexivity.
Qed.

Lemma extended_cons mode pdf file rest :
  extended svc mode (extended svc mode pdf [file]) rest = extended svc mode pdf (file :: rest).
Proof.
  unfold extended. cbn. rewrite app_nil_r, <- !app_assoc. reflexivity.
Qed.

Lemma convertLoop_world mode rest : ∀ i pdf w,
  sameStore w (snd (convertLoop svc mode i rest pdf w)).
Proof.
  induction rest as [|file rest IH]; intros i pdf w; cbn [convertLoop].
  - apply sameStore_refl.
  - unfold mbind, M_bind.
    pose proof (convertFile_world mode i file pdf w) as Hw.
    destruct (convertFile svc mode i file pdf w) as [[pdf'|] w']; cbn in Hw.
    + eapply sameStore_trans; [exact Hw | apply IH].
    + exact Hw.
Qed.

(** Entered at a positive index, a loop in which no step fails completes
    with the extended document. *)
Lemma convertLoop_completes mode rest : ∀ i pdf w,
  (0 < i)%nat → forallb (λ f, negb (failsb svc f)) rest = true →
  ∃ w', convertLoop svc mode i rest pdf w = (Normal (extended svc mode pdf rest), w').
Proof.
  induction rest as [|file rest IH]; intros i pdf w Hi Hok; cbn [convertLoop].
  - rewrite extended_nil. eexists. reflexivity.
  - cbn in Hok. apply andb_prop in Hok as [Hf Hrest].
    apply negb_true_iff in Hf.
    destruct (convertFile_later mode i file pdf w Hi Hf) as [w1 E1].
    unfold mbind, M_bind. rewrite E1.
    destruct (IH (S i) (extended svc mode pdf [file]) w1 ltac:(lia) Hrest) as [w2 E2].
    rewrite E2, extended_cons. eexists. reflexivity.
Qed.

(** A loop that meets a failing step throws. *)
Lemma convertLoop_throws mode rest : ∀ i pdf w,
  existsb (failsb svc) rest = true →
  fst (convertLoop svc mode i rest pdf w) = Throw.
Proof.
  induction rest as [|file rest IH]; intros i pdf w Hex; [discriminate|].
  cbn [convertLoop]. unfold mbind, M_bind.
  rewrite convertFile_answer. cbv zeta.
  cbn in Hex. unfold failsb in Hex at 1.
  destruct (answer svc file); cbn in Hex; try reflexivity; apply IH; exact Hex.
Qed.

Lemma some_step_fails (fs : list File) :
  forallb (λ f, negb (failsb svc f)) fs = false → existsb (failsb svc) fs = true.
Proof.
  induction fs as [|f fs IH]; cbn; [discriminate|].
  destruct (failsb svc f); cbn; [reflexivity | exact IH].
Qed.

Lemma failing_member (fs : list File) (file : File) :
  file ∈ fs → failsb svc file = true → existsb (failsb svc) fs = true.
Proof.
  intros Hin Hf. apply existsb_exists. exists file.
  split; [apply list_elem_of_In; exact Hin | exact Hf].
Qed.

Lemma no_failing_member (fs : list File) :
  (∀ f, f ∈ fs → failsb svc f = false) →
  forallb (λ f, negb (failsb svc f)) fs = true.
Proof.
  intros H. apply forallb_forall. intros f Hf.
  apply list_elem_of_In in Hf. rewrite (H f Hf). reflexivity.
Qed.

(** The [try] block over a non-empty selection with no failing step builds
    [document]. *)
Lemma buildPdf_completes dims first others opts w :
  forallb (λ f, negb (failsb svc f)) (first :: others) = true →
  ∃ w', buildPdf svc dims (first :: others) opts w
          = (Normal (document svc (imageFit opts)
                     (dims (pageSize opts) (orientation opts)) (first :: others)), w').
Proof.
  intros Hok. cbn in Hok. apply andb_prop in Hok as [Hf Hrest].
  apply negb_true_iff in Hf.
  unfold buildPdf. cbn [convertLoop]. unfold mbind, M_bind.
  rewrite convertFile_answer. cbv zeta.
  rewrite decide_False by lia.
  unfold document, callsOf, pageOf. cbn [map].
  unfold failsb in Hf.
  destruct (answer svc first) eqn:Ha; try discriminate.
  - edestruct (convertLoop_completes (imageFit opts) others 1
                 (JsPdf.new (dims (pageSize opts) (orientation opts)))) as [w' E]; [lia | exact Hrest |].
    rewrite E. eexists. reflexivity.
  - edestruct (convertLoop_completes (imageFit opts) others 1
                 (JsPdf.addImage (JsPdf.new (dims (pageSize opts) (orientation opts)))
                    (placed (imageFit opts) (JsPdf.pageWidth (JsPdf.new (dims (pageSize opts) (orientation opts))))
                       (JsPdf.pageHeight (JsPdf.new (dims (pageSize opts) (orientation opts))))
                       imageData imageFormat img))) as [w' E];
      [lia | exact Hrest |].
    rewrite E. eexists. reflexivity.
Qed.

Lemma buildPdf_throws dims fs opts w :
  existsb (failsb svc) fs = true → fst (buildPdf svc dims fs opts w) = Throw.
Proof. intros H. unfold buildPdf. apply convertLoop_throws. exact H. Qed.

Lemma buildPdf_world dims fs opts w :
  sameStore w (snd (buildPdf svc dims fs opts w)).
Proof. unfold buildPdf. apply convertLoop_world. Qed.

(** A [try] block that completes has built [document]. *)
Lemma buildPdf_normal dims first others opts w pdf w1 :
  buildPdf svc dims (first :: others) opts w = (Normal pdf, w1) →
  pdf = document svc (imageFit opts)
          (dims (pageSize opts) (orientation opts)) (first :: others) ∧
  forallb (λ f, negb (failsb svc f)) (first :: others) = true.
Proof.
  intros E.
  destruct (forallb (λ f, negb (failsb svc f)) (first :: others)) eqn:Hok.
  - destruct (buildPdf_completes dims first others opts w Hok) as [w' E'].
    rewrite E in E'. split; [congruence | reflexivity].
  - apply some_step_fails in Hok.
    pose proof (buildPdf_throws dims (first :: others) opts w Hok) as Ht.
    rewrite E in Ht. discriminate.
Qed.

Lemma no_page_append_among_images (imgs : list JsPdf.PlacedImage) :
  List.filter JsPdf.isAddPage (map JsPdf.CallAddImage imgs) = [].
Proof. induction imgs as [|img imgs IH]; [reflexivity | exact IH]. Qed.

Lemma count_calls_from mode pw ph (fs : list File) :
  length (List.filter JsPdf.isAddPage
            (concat (map (callsFrom svc mode pw ph) fs))) = length fs.
Proof.
  induction fs as [|f fs IH]; [reflexivity|].
  cbn [map concat]. unfold callsFrom at 1.
  rewrite <- app_comm_cons. cbn [List.filter JsPdf.isAddPage].
  rewrite List.filter_app, no_page_append_among_images.
  cbn [app length]. rewrite IH. reflexivity.
Qed.

Lemma document_counts mode dims first others :
  let pdf := document svc mode dims (first :: others) in
  JsPdf.numberOfPages pdf = S (length others) ∧
  JsPdf.countAddPage pdf = length others.
Proof.
  cbv zeta. unfold JsPdf.numberOfPages, JsPdf.countAddPage, document.
  cbn [JsPdf.pages JsPdf.calls callsOf]. split.
  - rewrite length_map. reflexivity.
  - cbn [List.filter JsPdf.isAddPage].
    rewrite List.filter_app, no_page_append_among_images.
    cbn [app]. apply count_calls_from.
Qed.

End WithServices.

End LoopFacts.

(** ** Properties of [handleConvert] and [handleReset] *)

Module ConversionFacts.

Import Dom App Run LoopFacts.

(** [handleConvert] once both guards have passed. *)
Lemma handleConvert_started svc pageDims s w :
  jspdf svc = Some pageDims → filteredFiles s ≠ [] →
  handleConvert svc s w =
    match buildPdf svc pageDims (filteredFiles s) (options s) w with
    | (Normal pdf, w1) =>
        (setStatus SUCCESS (setPdfBlobUrl (Some (nextUrl w1))
                              (setStatus CONVERTING s)),
         snd (createObjectURL pdf w1))
    | (Throw, w1) =>
        (setStatus FILES_SELECTED (setStatus CONVERTING s),
         alert "An error occurred during conversion. Please try again."
           (console_error "Error converting to PDF:" w1))
    end.
Proof.
  intros Hlib Hne. unfold handleConvert.
  rewrite decide_False by (destruct (filteredFiles s); [congruence | discriminate]).
  rewrite Hlib.
  destruct (buildPdf svc pageDims (filteredFiles s) (options s) w) as [[pdf|] w1];
    reflexivity.
Qed.

(** C5: a run over a non-empty filtered selection of N images that
    completes without failure stores a document with exactly N pages, page i
    holding the content of image i; the document is created once, every
    image after the first is preceded by exactly one page append, and N - 1
    page appends are made in all (none for a single image). *)
Theorem one_page_per_image_in_order
    (svc : Services) (pageDims : PageSize → Orientation → Q * Q)
    (s : Session) (w w1 : World) (pdf : JsPdf.jsPDF) :
  jspdf svc = Some pageDims →
  filteredFiles s ≠ [] →
  buildPdf svc pageDims (filteredFiles s) (options s) w = (Normal pdf, w1) →
  let N := length (filteredFiles s) in
  let dims := pageDims (pageSize (options s)) (orientation (options s)) in
  let mode := imageFit (options s) in
  let s' := fst (handleConvert svc s w) in
  let w' := snd (handleConvert svc s w) in
  status s' = SUCCESS ∧
  (∃ url, pdfBlobUrl s' = Some url ∧ blobs w' !! url = Some pdf) ∧
  JsPdf.numberOfPages pdf = N ∧
  (∀ (i : nat) (file : File), filteredFiles s !! i = Some file →
     JsPdf.pages pdf !! i = Some (pageOf svc mode (fst dims) (snd dims) file)) ∧
  JsPdf.calls pdf = callsOf svc mode (fst dims) (snd dims) (filteredFiles s) ∧
  JsPdf.countAddPage pdf = (N - 1)%nat.
Proof.
  intros Hlib Hne Hrun N dims mode s' w'. subst N dims mode s' w'.
  rewrite (handleConvert_started svc pageDims s w Hlib Hne), Hrun.
  cbn [fst snd].
  destruct (filteredFiles s) as [|first others] eqn:Hfs; [congruence|].
  apply buildPdf_normal in Hrun as [-> _].
  split; [reflexivity|].
  split. { eexists. split; [reflexivity|]. cbn. apply lookup_insert_eq. }
  destruct (document_counts svc (imageFit (options s))
              (pageDims (pageSize (options s)) (orientation (options s)))
              first others) as [Hpages Hcount].
  split; [exact Hpages|].
  split.
  { intros i file Hi. unfold document. cbn [JsPdf.pages].
    rewrite list_lookup_fmap, Hi. reflexivity. }
  split; [reflexivity|].
  rewrite Hcount. cbn [length]. lia.
Qed.

Lemma one_page_per_image_in_order_witness :
  let svc := Samples.services true true in
  let pdf := document svc fit (210, 297)
               [Samples.png1; Samples.webp1; Samples.jpg1] in
  buildPdf svc Samples.a4mm (filteredFiles Samples.mixed)
      (options Samples.mixed) emptyWorld
    = (Normal pdf, emptyWorld) ∧
  status (fst (handleConvert svc Samples.mixed emptyWorld)) = SUCCESS ∧
  JsPdf.numberOfPages pdf = 3%nat ∧ JsPdf.countAddPage pdf = 2%nat.
Proof.
  cbv zeta.
  assert (Hrun :
    buildPdf (Samples.services true true) Samples.a4mm
      (filteredFiles Samples.mixed) (options Samples.mixed) emptyWorld
    = (Normal (document (Samples.services true true) fit (210, 297)
                 [Samples.png1; Samples.webp1; Samples.jpg1]), emptyWorld))
    by (vm_compute; reflexivity).
  assert (Hne : filteredFiles Samples.mixed ≠ [])
    by (vm_compute; discriminate).
  split; [exact Hrun|].
  destruct (one_page_per_image_in_order (Samples.services true true)
              Samples.a4mm Samples.mixed emptyWorld emptyWorld _
              eq_refl Hne Hrun)
    as (Hs & _ & Hn & _ & _ & Hc).
  split; [exact Hs | split; [exact Hn | exact Hc]].
Defined.

(** The specification's scenario of a PNG, a JPEG and a WebP image (and a
    GIF, which is filtered out): three pages in input order, the WebP image
    embedded as PNG. *)
Example mixed_selection_scenario :
  let svc := Samples.services true true in
  let w' := snd (handleConvert svc Samples.mixed emptyWorld) in
  filteredFiles Samples.mixed = [Samples.png1; Samples.webp1; Samples.jpg1] ∧
  (map (map JsPdf.imageFormat) ∘ JsPdf.pages) <$> (blobs w' !! 0%nat)
    = Some [ ["PNG"]; ["PNG"]; ["JPEG"] ] ∧
  (map (map JsPdf.imageData) ∘ JsPdf.pages) <$> (blobs w' !! 0%nat)
    = Some [ ["data:one.png"]; ["data:canvas.png"]; ["data:two.jpg"] ].
Proof. cbv zeta. repeat split; vm_compute; reflexivity. Qed.

(** C6: when the read or a decode of some image of the run fails, the run
    aborts: the status becomes [FILES_SELECTED], the files, the options and
    the stored handle keep their values, and no blob URL is created. *)
Theorem failed_read_or_decode_aborts
    (svc : Services) (pageDims : PageSize → Orientation → Q * Q)
    (s : Session) (w : World) (file : File) :
  jspdf svc = Some pageDims →
  file ∈ filteredFiles s →
  answer svc file = ReadFails ∨ answer svc file = DecodeFails →
  let s' := fst (handleConvert svc s w) in
  let w' := snd (handleConvert svc s w) in
  status s' = FILES_SELECTED ∧ files s' = files s ∧ options s' = options s ∧
  pdfBlobUrl s' = pdfBlobUrl s ∧
  blobs w' = blobs w ∧ nextUrl w' = nextUrl w ∧ downloads w' = downloads w ∧
  alerts w' =
    alerts w ++ ["An error occurred during conversion. Please try again."].
Proof.
  intros Hlib Hin Hfail s' w'. subst s' w'.
  assert (Hne : filteredFiles s ≠ [])
    by (intros E; rewrite E in Hin; inversion Hin).
  assert (Hf : failsb svc file = true)
    by (unfold failsb; destruct Hfail as [-> | ->]; reflexivity).
  rewrite (handleConvert_started svc pageDims s w Hlib Hne).
  pose proof (buildPdf_throws svc pageDims (filteredFiles s) (options s) w
                (failing_member svc _ _ Hin Hf)) as Ht.
  pose proof (buildPdf_world svc pageDims (filteredFiles s) (options s) w)
    as (Hb & Hn & Ha & Hd).
  destruct (buildPdf svc pageDims (filteredFiles s) (options s) w)
    as [[pdf|] w1]; cbn in Ht, Hb, Hn, Ha, Hd; [discriminate|].
  cbn. rewrite Hb, Hn, Ha, Hd. repeat split.
Qed.

Lemma failed_read_or_decode_aborts_witness :
  let svc := Samples.services true true in
  let s := Samples.selected [Samples.png1; Samples.badPng] in
  answer svc Samples.badPng = ReadFails ∧
  status (fst (handleConvert svc s emptyWorld)) = FILES_SELECTED ∧
  files (fst (handleConvert svc s emptyWorld)) = files s ∧
  pdfBlobUrl (fst (handleConvert svc s emptyWorld)) = pdfBlobUrl s ∧
  blobs (snd (handleConvert svc s emptyWorld)) = blobs emptyWorld.
Proof.
  cbv zeta. split; [reflexivity|].
  destruct (failed_read_or_decode_aborts (Samples.services true true)
              Samples.a4mm
              (Samples.selected [Samples.png1; Samples.badPng])
              emptyWorld Samples.badPng eq_refl)
    as (Hs & Hf & _ & Hu & Hb & _).
  - change (Samples.badPng ∈ [Samples.png1; Samples.badPng]).
    apply list_elem_of_further, list_elem_of_here.
  - left. reflexivity.
  - split; [exact Hs | split; [exact Hf | split; [exact Hu | exact Hb]]].
Defined.

(** C8: when the filtered selection is empty or the jsPDF library is not
    loaded, [handleConvert] leaves the session as it is and only shows an
    alert: no blob URL is created and nothing is logged. *)
Theorem rejected_convert_changes_nothing
    (svc : Services) (s : Session) (w : World) :
  filteredFiles s = [] ∨ jspdf svc = None →
  let w' := snd (handleConvert svc s w) in
  fst (handleConvert svc s w) = s ∧
  blobs w' = blobs w ∧ nextUrl w' = nextUrl w ∧
  console w' = console w ∧ downloads w' = downloads w ∧
  ∃ msg, alerts w' = alerts w ++ [msg].
Proof.
  intros Hguard w'. subst w'. unfold handleConvert.
  destruct (decide (length (filteredFiles s) = 0%nat)) as [Hz|Hnz].
  - cbn. repeat split. eexists. reflexivity.
  - destruct Hguard as [He | Hlib]; [rewrite He in Hnz; contradiction|].
    rewrite Hlib. cbn. repeat split. eexists. reflexivity.
Qed.

Lemma rejected_convert_changes_nothing_witness :
  let svc := Samples.services true false in
  let s := Samples.selected [Samples.png1] in
  jspdf svc = None ∧
  fst (handleConvert svc s emptyWorld) = s ∧
  blobs (snd (handleConvert svc s emptyWorld)) = blobs emptyWorld.
Proof.
  cbv zeta. split; [reflexivity|].
  destruct (rejected_convert_changes_nothing (Samples.services true false)
              (Samples.selected [Samples.png1]) emptyWorld
              (or_intror eq_refl)) as (Hs & Hb & _).
  split; [exact Hs | exact Hb].
Defined.

(** C7, as stated, fails when another image of the run cannot be read: with
    a WebP image whose surface cannot be obtained followed by an unreadable
    PNG, the run does not reach [SUCCESS] but ends in [FILES_SELECTED]. *)
Lemma surface_failure_run_can_abort :
  let svc := Samples.services false true in
  let s := Samples.selected [Samples.webp1; Samples.badPng] in
  filteredFiles s = [Samples.webp1; Samples.badPng] ∧
  answer svc Samples.webp1 = NoSurface ∧
  status (fst (handleConvert svc s emptyWorld)) = FILES_SELECTED ∧
  status (fst (handleConvert svc s emptyWorld)) ≠ SUCCESS ∧
  pdfBlobUrl (fst (handleConvert svc s emptyWorld)) = None.
Proof.
  cbv zeta.
  split; [vm_compute; reflexivity|].
  split; [vm_compute; reflexivity|].
  split; [vm_compute; reflexivity|].
  split; [vm_compute; discriminate|].
  vm_compute; reflexivity.
Qed.

(** C7 (amended): in a run containing a WebP image whose drawing surface
    cannot be obtained, the content of exactly the images without a surface
    is skipped and the loop goes on with the remaining images; the run
    reaches [SUCCESS] exactly when no read or decode of an image fails, in
    particular when such a WebP image is the sole input.  The missing
    surface itself never aborts. *)
Theorem missing_surface_skips_image
    (svc : Services) (pageDims : PageSize → Orientation → Q * Q)
    (s : Session) (w : World) (file : File) :
  jspdf svc = Some pageDims →
  file ∈ filteredFiles s →
  answer svc file = NoSurface →
  let dims := pageDims (pageSize (options s)) (orientation (options s)) in
  let mode := imageFit (options s) in
  let s' := fst (handleConvert svc s w) in
  let w' := snd (handleConvert svc s w) in
  (status s' = SUCCESS ↔ ∀ f, f ∈ filteredFiles s → failsb svc f = false) ∧
  ((∀ f, f ∈ filteredFiles s → failsb svc f = false) →
   ∃ url pdf,
     pdfBlobUrl s' = Some url ∧ blobs w' !! url = Some pdf ∧
     JsPdf.numberOfPages pdf = length (filteredFiles s) ∧
     ∀ (i : nat) (f : File), filteredFiles s !! i = Some f →
       JsPdf.pages pdf !! i = Some (pageOf svc mode (fst dims) (snd dims) f) ∧
       (pageOf svc mode (fst dims) (snd dims) f = [] ↔ answer svc f = NoSurface)) ∧
  (filteredFiles s = [file] → status s' = SUCCESS).
Proof.
  intros Hlib Hin Hns dims mode s' w'. subst dims mode s' w'.
  assert (Hne : filteredFiles s ≠ [])
    by (intros E; rewrite E in Hin; inversion Hin).
  rewrite (handleConvert_started svc pageDims s w Hlib Hne).
  assert (Hok : (∀ f, f ∈ filteredFiles s → failsb svc f = false) →
    ∃ w1, buildPdf svc pageDims (filteredFiles s) (options s) w
      = (Normal (document svc (imageFit (options s))
                   (pageDims (pageSize (options s)) (orientation (options s)))
                   (filteredFiles s)), w1)).
  { intros Hall. apply no_failing_member in Hall.
    destruct (filteredFiles s) as [|first others]; [congruence|].
    apply buildPdf_completes. exact Hall. }
  assert (Hsuccess : (∀ f, f ∈ filteredFiles s → failsb svc f = false) →
    status (fst
      match buildPdf svc pageDims (filteredFiles s) (options s) w with
      | (Normal pdf, w1) =>
          (setStatus SUCCESS (setPdfBlobUrl (Some (nextUrl w1))
                                (setStatus CONVERTING s)),
           snd (createObjectURL pdf w1))
      | (Throw, w1) =>
          (setStatus FILES_SELECTED (setStatus CONVERTING s),
           alert "An error occurred during conversion. Please try again."
             (console_error "Error converting to PDF:" w1))
      end) = SUCCESS).
  { intros Hall. destruct (Hok Hall) as [w1 ->]. reflexivity. }
  split; [split|split].
  - intros Hst f Hf.
    destruct (failsb svc f) eqn:Hfb; [|reflexivity].
    pose proof (buildPdf_throws svc pageDims (filteredFiles s) (options s) w
                  (failing_member svc _ _ Hf Hfb)) as Ht.
    destruct (buildPdf svc pageDims (filteredFiles s) (options s) w)
      as [[pdf|] w1]; cbn in Ht, Hst; discriminate.
  - exact Hsuccess.
  - intros Hall. destruct (Hok Hall) as [w1 ->]. cbn [fst snd].
    eexists _, _. split; [reflexivity|].
    split; [cbn; apply lookup_insert_eq|].
    split; [unfold JsPdf.numberOfPages, document; cbn; apply length_map|].
    intros i f Hi. split.
    + unfold document. cbn [JsPdf.pages].
      rewrite list_lookup_fmap, Hi. reflexivity.
    + assert (Hf : failsb svc f = false)
        by (apply Hall; eapply list_elem_of_lookup_2; exact Hi).
      unfold failsb in Hf. unfold pageOf.
      destruct (answer svc f); try discriminate; split; intros; congruence.
  - intros Hone. apply Hsuccess. intros f Hf.
    rewrite Hone in Hf. apply list_elem_of_singleton in Hf as ->.
    unfold failsb. rewrite Hns. reflexivity.
Qed.

Lemma missing_surface_skips_image_witness :
  let svc := Samples.services false true in
  answer svc Samples.webp1 = NoSurface ∧
  (status (fst (handleConvert svc Samples.mixed emptyWorld)) = SUCCESS ↔
   ∀ f, f ∈ filteredFiles Samples.mixed → failsb svc f = false).
Proof.
  cbv zeta. split; [reflexivity|].
  destruct (missing_surface_skips_image (Samples.services false true)
              Samples.a4mm Samples.mixed emptyWorld Samples.webp1 eq_refl)
    as (Hiff & _ & _).
  - change (Samples.webp1 ∈ [Samples.png1; Samples.webp1; Samples.jpg1]).
    apply list_elem_of_further, list_elem_of_here.
  - reflexivity.
  - exact Hiff.
Defined.

(** The specification's scenario of a sole WebP image without a surface: the
    run succeeds and stores a document whose single page is empty. *)
Example sole_webp_without_surface :
  let svc := Samples.services false true in
  let s := Samples.selected [Samples.webp1] in
  status (fst (handleConvert svc s emptyWorld)) = SUCCESS ∧
  JsPdf.pages <$> (blobs (snd (handleConvert svc s emptyWorld)) !! 0%nat)
    = Some [ [] ].
Proof. cbv zeta. split; vm_compute; reflexivity. Qed.

Lemma live_alert msg w : live (alert msg w) = live w.
Proof. reflexivity. Qed.

Lemma live_console_error msg w : live (console_error msg w) = live w.
Proof. reflexivity. Qed.

Lemma live_createObjectURL blob w :
  live (snd (createObjectURL blob w)) = {[ nextUrl w ]} ∪ live w.
Proof. unfold live, createObjectURL. cbn. apply dom_insert_L. Qed.

Lemma live_revokeObjectURL url w :
  live (revokeObjectURL url w) = live w ∖ {[ url ]}.
Proof. unfold live, revokeObjectURL. cbn. apply dom_delete_L. Qed.

(** [handleConvert] itself contains no [URL.revokeObjectURL]: what was live
    stays live.  A prior handle is released by [handleReset], which every
    session that holds one has to pass through before it can convert
    again. *)
Lemma handleConvert_keeps_live svc s w :
  live w ⊆ live (snd (handleConvert svc s w)).
Proof.
  unfold handleConvert.
  destruct (decide (length (filteredFiles s) = 0%nat)); [reflexivity|].
  destruct (jspdf svc) as [pageDims|]; [|reflexivity].
  pose proof (buildPdf_world svc pageDims (filteredFiles s) (options s) w)
    as (Hb & _).
  destruct (buildPdf svc pageDims (filteredFiles s) (options s) w)
    as [[pdf|] w1]; cbn in Hb.
  - change (live w ⊆ live (snd (createObjectURL pdf w1))).
    rewrite live_createObjectURL. unfold live. rewrite Hb.
    apply union_subseteq_r.
  - cbn. unfold live. cbn. rewrite Hb. reflexivity.
Qed.

Lemma handleConvert_singleOwner svc s w :
  status s = FILES_SELECTED → singleOwner s w →
  singleOwner (fst (handleConvert svc s w)) (snd (handleConvert svc s w)).
Proof.
  intros Hst [Hlive Hheld].
  assert (Hnone : pdfBlobUrl s = None).
  { destruct (pdfBlobUrl s) eqn:E; [|reflexivity].
    rewrite Hheld in Hst by discriminate. discriminate. }
  assert (Hempty : live w = ∅) by (rewrite Hlive; unfold held; rewrite Hnone; reflexivity).
  unfold handleConvert.
  destruct (decide (length (filteredFiles s) = 0%nat)); [split; assumption|].
  destruct (jspdf svc) as [pageDims|]; [|split; assumption].
  pose proof (buildPdf_world svc pageDims (filteredFiles s) (options s) w)
    as (Hb & _).
  destruct (buildPdf svc pageDims (filteredFiles s) (options s) w)
    as [[pdf|] w1]; cbn in Hb.
  - split; [|reflexivity].
    change (live (snd (createObjectURL pdf w1)) = {[ nextUrl w1 ]}).
    rewrite live_createObjectURL.
    unfold live in *. rewrite Hb, Hempty. apply (right_id_L ∅ (∪)).
  - split.
    + unfold held. cbn. rewrite Hnone. unfold live in *. cbn. congruence.
    + cbn. rewrite Hnone. congruence.
Qed.

Lemma handleReset_releases s w :
  pdfBlobUrl (fst (handleReset s w)) = None ∧
  live (snd (handleReset s w)) = live w ∖ held s.
Proof.
  unfold handleReset, held. split; [reflexivity|]. cbn.
  destruct (pdfBlobUrl s);
    [apply live_revokeObjectURL | symmetry; apply difference_empty_L].
Qed.

Lemma handle_singleOwner svc e s w :
  offered (status s) e = true → singleOwner s w →
  singleOwner (fst (handle svc e s w)) (snd (handle svc e s w)).
Proof.
  intros Hoff Hinv.
  assert (Hnone : status s ≠ SUCCESS → pdfBlobUrl s = None).
  { intros Hst. destruct Hinv as [_ Hheld].
    destruct (pdfBlobUrl s); [|reflexivity].
    exfalso. apply Hst, Hheld. discriminate. }
  destruct e; cbn [handle fst snd].
  - (* FilesAdded *)
    destruct (status s) eqn:Hst; try discriminate.
    destruct Hinv as [Hlive _]. split.
    + unfold held in *. cbn. exact Hlive.
    + cbn. rewrite Hnone by discriminate. congruence.
  - (* RemoveFile *)
    destruct (status s) eqn:Hst; try discriminate.
    destruct Hinv as [Hlive _].
    assert (Hu : pdfBlobUrl (handleRemoveFile index s) = pdfBlobUrl s).
    { unfold handleRemoveFile. case_decide; reflexivity. }
    split.
    + unfold held. rewrite Hu. exact Hlive.
    + rewrite Hu, Hnone by discriminate. congruence.
  - (* OptionChange *)
    destruct (status s) eqn:Hst; try discriminate.
    destruct Hinv as [Hlive _]. split.
    + exact Hlive.
    + cbn. rewrite Hnone by discriminate. congruence.
  - (* Convert *)
    destruct (status s) eqn:Hst; try discriminate.
    apply handleConvert_singleOwner; assumption.
  - (* Download *)
    destruct Hinv as [Hlive Hheld]. split; [|exact Hheld].
    rewrite <- Hlive. unfold handleDownload.
    destruct (pdfBlobUrl s); reflexivity.
  - (* Reset *)
    destruct Hinv as [Hlive _].
    destruct (handleReset_releases s w) as [Hu Hl]. split.
    + rewrite Hl, Hlive. unfold held at 3.
      change (pdfBlobUrl (fst (handleReset s w))) with (@None nat).
      apply difference_diag_L.
    + rewrite Hu. congruence.
Qed.

Lemma run_singleOwner svc es : ∀ s w,
  singleOwner s w →
  singleOwner (fst (run svc es s w)) (snd (run svc es s w)).
Proof.
  induction es as [|e es IH]; intros s w Hinv; cbn [run]; [exact Hinv|].
  destruct (offered (status s) e) eqn:Hoff; [|apply IH; exact Hinv].
  pose proof (handle_singleOwner svc e s w Hoff Hinv) as Hstep.
  destruct (handle svc e s w) as [s' w']. apply IH. exact Hstep.
Qed.

(** A continuation runs from the state its prefix has left. *)
Lemma run_app svc es es' : ∀ s w,
  run svc (es ++ es') s w
  = run svc es' (fst (run svc es s w)) (snd (run svc es s w)).
Proof.
  induction es as [|e es IH]; intros s w; [reflexivity|].
  cbn [app run].
  destruct (offered (status s) e); [|apply IH].
  destruct (handle svc e s w) as [s1 w1]. apply IH.
Qed.

(** C9: the artifact's handle is a single-owner resource.  At every point of
    every sequence of user actions the live handles are exactly the one the
    session holds, so two live handles never coexist; whenever a conversion
    can be started no handle is live, so the handle of a prior run has been
    released before a new one is stored, and a handle the session has held
    and holds no more is not live; an explicit reset releases the held
    handle. *)
Theorem handle_has_single_owner (svc : Services) :
  (∀ es : list Event,
     let s := fst (run svc es initialSession emptyWorld) in
     let w := snd (run svc es initialSession emptyWorld) in
     live w = held s ∧ size (live w) ≤ 1 ∧
     (offered (status s) Convert = true → pdfBlobUrl s = None ∧ live w = ∅)) ∧
  (∀ (es es' : list Event) (url : nat),
     let s := fst (run svc es initialSession emptyWorld) in
     let s' := fst (run svc (es ++ es') initialSession emptyWorld) in
     let w' := snd (run svc (es ++ es') initialSession emptyWorld) in
     pdfBlobUrl s = Some url → pdfBlobUrl s' ≠ Some url → url ∉ live w') ∧
  (∀ es : list Event,
     let s := fst (run svc es initialSession emptyWorld) in
     let w := snd (run svc es initialSession emptyWorld) in
     offered (status s) Reset = true →
     pdfBlobUrl (fst (handleReset s w)) = None ∧
     live (snd (handleReset s w)) = ∅) ∧
  (∀ (s : Session) (w : World),
     pdfBlobUrl (fst (handleReset s w)) = None ∧
     live (snd (handleReset s w)) = live w ∖ held s).
Proof.
  assert (Hreach : ∀ es,
    singleOwner (fst (run svc es initialSession emptyWorld))
                (snd (run svc es initialSession emptyWorld))).
  { intros es. apply run_singleOwner.
    split; [reflexivity | intros H; contradiction]. }
  repeat apply conj.
  - intros es s w. destruct (Hreach es) as [Hlive Hheld]. fold s w in Hlive, Hheld.
    split; [exact Hlive|].
    split.
    { rewrite Hlive. unfold held. destruct (pdfBlobUrl s).
      - rewrite size_singleton. lia.
      - rewrite size_empty. lia. }
    intros Hoff.
    assert (Hnone : pdfBlobUrl s = None).
    { destruct (pdfBlobUrl s) eqn:Hu; [|reflexivity].
      rewrite Hheld in Hoff by discriminate. discriminate Hoff. }
    split; [exact Hnone|].
    rewrite Hlive. unfold held. rewrite Hnone. reflexivity.
  - intros es es' url s s' w' _ Hgone Hin.
    destruct (Hreach (es ++ es')) as [Hlive _]. fold s' w' in Hlive.
    rewrite Hlive in Hin. unfold held in Hin.
    destruct (pdfBlobUrl s') as [u'|].
    + apply elem_of_singleton in Hin as ->. apply Hgone. reflexivity.
    + apply not_elem_of_empty in Hin. exact Hin.
  - intros es s w _. destruct (Hreach es) as [Hlive _]. fold s w in Hlive.
    destruct (handleReset_releases s w) as [Hu Hl].
    split; [exact Hu|]. rewrite Hl, Hlive. apply difference_diag_L.
  - apply handleReset_releases.
Qed.

(** A second conversion in the same session: add a file, convert, reset,
    add a file, convert.  The session ends holding handle 1, the only live
    one; handle 0 of the first run was revoked by the reset. *)
Example second_conversion_after_reset :
  let svc := Samples.services true true in
  let es := [FilesAdded [Samples.png1]; Convert; Reset;
             FilesAdded [Samples.jpg1]; Convert] in
  pdfBlobUrl (fst (run svc (take 2 es) initialSession emptyWorld)) = Some 0%nat ∧
  pdfBlobUrl (fst (run svc es initialSession emptyWorld)) = Some 1%nat ∧
  blobs (snd (run svc es initialSession emptyWorld)) !! 0%nat = None ∧
  is_Some (blobs (snd (run svc es initialSession emptyWorld)) !! 1%nat).
Proof.
  cbv zeta. repeat apply conj; vm_compute; try reflexivity.
  eexists. reflexivity.
Qed.

End ConversionFacts.

(** ** Further properties of the layout calculator *)

Module LayoutMore.

Import Layout Geometry LayoutFacts.

















(** X6: An image larger than the available area on both axes is stretched by
    ['original'] onto the whole available area, exactly as ['fill'] does,
    whatever its proportions. *)
Theorem original_is_fill_when_oversized (iw ih pw ph : Q) :
  pw - 20 <= iw * pixelToMm → ph - 20 <= ih * pixelToMm →
  sameRect (calculateImageDimensions iw ih pw ph original)
           (calculateImageDimensions iw ih pw ph fill).
Proof.
  intros Hw Hh. unfold sameRect. cbn.
  rewrite available_width_eq, available_height_eq.
  rewrite (Q.min_r _ _ Hw), (Q.min_r _ _ Hh). unfold margin.
  repeat apply conj; try reflexivity; field.
Qed.

Lemma original_is_fill_when_oversized_witness :
  sameRect (calculateImageDimensions 4000 1000 210 297 original)
           (calculateImageDimensions 4000 1000 210 297 fill).
Proof.
  apply (original_is_fill_when_oversized 4000 1000 210 297); discriminate.
Defined.

(** X7: There is no guard for a page that does not exceed the margins: on a
    page narrower than 20 mm ['fit'] returns a negative width and height. *)
Theorem fit_negative_on_narrow_page (iw ih pw ph : Q) :
  0 < iw → 0 < ih → pw < 20 →
  let r := calculateImageDimensions iw ih pw ph fit in
  width r < 0 ∧ height r < 0.
Proof.
  intros Hiw Hih Hpw r. subst r. cbn.
  assert (Hs : fitScale iw ih pw ph < 0).
  { rewrite fitScale_eq. apply Q.min_lt_iff. left.
    apply Qlt_shift_div_r; lra. }
  split; nra.
Qed.

Lemma fit_negative_on_narrow_page_witness :
  let r := calculateImageDimensions 800 600 15 297 fit in
  width r < 0 ∧ height r < 0.
Proof.
  apply (fit_negative_on_narrow_page 800 600 15 297); reflexivity.
Defined.

End LayoutMore.

(** ** Further properties of the session handlers *)

Module SessionMore.

Import Dom App Run LoopFacts ConversionFacts.

Lemma filter_all {A} (P : A → Prop) `{∀ a, Decision (P a)} (l : list A) :
  (∀ a, a ∈ l → P a) → filter P l = l.
Proof.
  induction l as [|a l IH]; intros Hall; [reflexivity|].
  rewrite filter_cons_True by (apply Hall; left).
  f_equal. apply IH. intros b Hb. apply Hall. right. exact Hb.
Qed.

Lemma filter_none {A} (P : A → Prop) `{∀ a, Decision (P a)} (l : list A) :
  (∀ a, a ∈ l → ¬ P a) → filter P l = [].
Proof.
  induction l as [|a l IH]; intros Hall; [reflexivity|].
  rewrite filter_cons_False by (apply Hall; left).
  apply IH. intros b Hb. apply Hall. right. exact Hb.
Qed.

Lemma delete_beyond {A} (l : list A) : ∀ i : nat,
  (length l ≤ i)%nat → delete i l = l.
Proof.
  induction l as [|a l IH]; intros i Hi; [reflexivity|].
  destruct i as [|i]; cbn in Hi; [lia|].
  change (delete (S i) (a :: l)) with (a :: delete i l).
  f_equal. apply IH. lia.
Qed.

Lemma filter_delete_rejected {A} (P : A → Prop) `{∀ a, Decision (P a)}
    (l : list A) : ∀ (i : nat) (a : A),
  l !! i = Some a → ¬ P a → filter P (delete i l) = filter P l.
Proof.
  induction l as [|b l IH]; intros i a Hi Hna; [discriminate|].
  destruct i as [|i]; cbn in Hi.
  - injection Hi as ->. cbn [delete list_delete].
    rewrite filter_cons_False by exact Hna. reflexivity.
  - change (delete (S i) (b :: l)) with (b :: delete i l).
    rewrite !filter_cons. rewrite (IH i a Hi Hna). reflexivity.
Qed.

Lemma convert_cases svc s w :
  status (fst (handleConvert svc s w)) = status s ∨
  status (fst (handleConvert svc s w)) = SUCCESS ∨
  status (fst (handleConvert svc s w)) = FILES_SELECTED.
Proof.
  unfold handleConvert.
  destruct (decide (length (filteredFiles s) = 0%nat)); [left; reflexivity|].
  destruct (jspdf svc) as [pageDims|]; [|left; reflexivity].
  destruct (buildPdf svc pageDims (filteredFiles s) (options s) w)
    as [[pdf|] w1]; [right; left | right; right]; reflexivity.
Qed.

Lemma handleConvert_nothing_supported svc s w :
  filteredFiles s = [] → fst (handleConvert svc s w) = s.
Proof.
  intros E. unfold handleConvert. rewrite E. reflexivity.
Qed.

(** X8: The filtered selection holds only PNG, JPEG and WebP files, in the order
    of the selection, and is the whole selection when every file is of such
    a type: a file of another type never reaches the conversion loop. *)
Theorem filtered_files_supported_in_order (s : Session) :
  (∀ f, f ∈ filteredFiles s ↔ f ∈ files s ∧ type f ∈ supportedTypes) ∧
  filteredFiles s `sublist_of` files s ∧
  ((∀ f, f ∈ files s → type f ∈ supportedTypes) → filteredFiles s = files s).
Proof.
  unfold filteredFiles. repeat apply conj.
  - intros f. rewrite list_elem_of_filter. tauto.
  - apply sublist_filter.
  - apply filter_all.
Qed.

(** X9: Adding files appends them to the selection and always shows the file
    list: the new supported files follow the ones already shown, and when
    no supported file is present a convert attempt only raises the alert. *)
Theorem added_files_follow_in_order
    (svc : Services) (newFiles : list File) (s : Session) (w : World) :
  let s' := handleFilesAdded newFiles s in
  status s' = FILES_SELECTED ∧
  files s' = files s ++ newFiles ∧
  filteredFiles s' =
    filteredFiles s ++ filter (λ f, type f ∈ supportedTypes) newFiles ∧
  ((∀ f, f ∈ files s ++ newFiles → type f ∉ supportedTypes) →
     fst (handleConvert svc s' w) = s').
Proof.
  cbv zeta. unfold handleFilesAdded, filteredFiles. cbn [status files setStatus setFiles].
  repeat apply conj; try reflexivity.
  - apply filter_app.
  - intros Hnone.
    apply handleConvert_nothing_supported.
    unfold filteredFiles. cbn [files setStatus setFiles].
    apply filter_none. exact Hnone.
Qed.

Lemma handleRemoveFile_files i s :
  files (handleRemoveFile i s) = delete i (files s).
Proof. reflexivity. Qed.

(** X10: The remove button of the i-th shown file deletes index i of the whole
    selection.  When every selected file is of a supported type the two
    lists agree and the shown file disappears. *)
Theorem remove_shown_file_when_all_supported (i : nat) (s : Session) :
  (∀ f, f ∈ files s → type f ∈ supportedTypes) →
  filteredFiles (handleRemoveFile i s) = delete i (filteredFiles s).
Proof.
  intros Hall. unfold filteredFiles. rewrite handleRemoveFile_files.
  rewrite (filter_all _ (files s) Hall).
  apply filter_all. intros f Hf. apply Hall.
  eapply list_elem_of_delete_inv. exact Hf.
Qed.

Lemma remove_shown_file_when_all_supported_witness :
  filteredFiles (handleRemoveFile 1
                   (Samples.selected [Samples.png1; Samples.jpg1; Samples.webp1]))
  = delete 1%nat
      (filteredFiles (Samples.selected [Samples.png1; Samples.jpg1; Samples.webp1])).
Proof.
  apply (remove_shown_file_when_all_supported 1
           (Samples.selected [Samples.png1; Samples.jpg1; Samples.webp1])).
  intros f Hf.
  change (f ∈ [Samples.png1; Samples.jpg1; Samples.webp1]) in Hf.
  apply list_elem_of_In in Hf. cbn in Hf.
  destruct Hf as [<- | [<- | [<- | []]]];
    repeat first [apply list_elem_of_here | apply list_elem_of_further].
Defined.

(** X11: When the selection holds an unsupported file at index i, the remove
    button of the i-th shown file deletes that hidden file instead: the
    shown list stays as it was. *)
Theorem remove_hits_hidden_file (i : nat) (s : Session) (f : File) :
  files s !! i = Some f → type f ∉ supportedTypes →
  filteredFiles (handleRemoveFile i s) = filteredFiles s ∧
  length (files (handleRemoveFile i s)) = (length (files s) - 1)%nat.
Proof.
  intros Hi Hf. split.
  - unfold filteredFiles. rewrite handleRemoveFile_files.
    exact (filter_delete_rejected _ (files s) i f Hi Hf).
  - rewrite handleRemoveFile_files. apply length_delete. eexists. exact Hi.
Qed.

Lemma remove_hits_hidden_file_witness :
  let s := Samples.selected [Samples.gif1; Samples.png1] in
  filteredFiles s = [Samples.png1] ∧
  filteredFiles (handleRemoveFile 0 s) = filteredFiles s ∧
  length (files (handleRemoveFile 0 s)) = (length (files s) - 1)%nat.
Proof.
  cbv zeta. split; [reflexivity|].
  apply (remove_hits_hidden_file 0
           (Samples.selected [Samples.gif1; Samples.png1]) Samples.gif1).
  - reflexivity.
  - intros H. apply list_elem_of_In in H. cbn in H.
    destruct H as [H | [H | [H | []]]]; discriminate H.
Defined.

(** X12: Removing a file in range shortens the selection by one; the session
    goes back to the idle screen exactly when that was the only file, and
    the options and the stored handle are never touched. *)
Theorem remove_last_file_returns_to_idle (i : nat) (s : Session) :
  (i < length (files s))%nat →
  let s' := handleRemoveFile i s in
  length (files s') = (length (files s) - 1)%nat ∧
  status s' = (if decide (length (files s) = 1%nat) then IDLE else status s) ∧
  options s' = options s ∧ pdfBlobUrl s' = pdfBlobUrl s.
Proof.
  intros Hi s'. subst s'.
  assert (Hlen : length (delete i (files s)) = (length (files s) - 1)%nat)
    by (apply length_delete, lookup_lt_is_Some_2; exact Hi).
  unfold handleRemoveFile. cbv zeta.
  destruct (decide (length (delete i (files s)) = 0%nat)) as [Hz|Hnz];
    cbn [status files options pdfBlobUrl setStatus setFiles].
  - rewrite decide_True by lia. repeat apply conj; try reflexivity. exact Hlen.
  - rewrite decide_False by lia. repeat apply conj; try reflexivity. exact Hlen.
Qed.

Lemma remove_last_file_returns_to_idle_witness :
  let s' := handleRemoveFile 0 (Samples.selected [Samples.png1]) in
  length (files s') = 0%nat ∧ status s' = IDLE.
Proof.
  cbv zeta.
  destruct (remove_last_file_returns_to_idle 0 (Samples.selected [Samples.png1]))
    as (Hl & Hs & _); [cbn; lia|].
  split; [exact Hl | exact Hs].
Defined.

(** X13: A remove at an index beyond a non-empty selection changes nothing. *)
Theorem remove_out_of_range_is_ignored (i : nat) (s : Session) :
  (length (files s) ≤ i)%nat → files s ≠ [] → handleRemoveFile i s = s.
Proof.
  intros Hi Hne. unfold handleRemoveFile. cbv zeta.
  rewrite (delete_beyond (files s) i Hi). rewrite decide_False
    by (destruct (files s); [congruence | discriminate]).
  destruct s. reflexivity.
Qed.

Lemma remove_out_of_range_is_ignored_witness :
  handleRemoveFile 5 Samples.mixed = Samples.mixed.
Proof.
  apply (remove_out_of_range_is_ignored 5 Samples.mixed).
  - cbn. lia.
  - discriminate.
Defined.

(** X14: An option change overrides exactly the fields it names: applying the
    same change twice is the same as once, a change naming no field changes
    nothing, of two changes the later wins field by field, and the status,
    the files and the stored handle are never touched. *)
Theorem option_change_overrides_named_fields
    (c c' : PartialOptions) (s : Session) :
  handleOptionChange c (handleOptionChange c s) = handleOptionChange c s ∧
  handleOptionChange
    {| newPageSize := None; newOrientation := None; newImageFit := None |} s = s ∧
  options (handleOptionChange c' (handleOptionChange c s)) =
    {| pageSize := default (default (pageSize (options s)) (newPageSize c))
                     (newPageSize c');
       orientation := default (default (orientation (options s)) (newOrientation c))
                        (newOrientation c');
       imageFit := default (default (imageFit (options s)) (newImageFit c))
                     (newImageFit c') |} ∧
  status (handleOptionChange c s) = status s ∧
  files (handleOptionChange c s) = files s ∧
  pdfBlobUrl (handleOptionChange c s) = pdfBlobUrl s.
Proof.
  repeat apply conj; try reflexivity.
  - destruct s as [st fs [ps o fit] u], c as [[?|] [?|] [?|]]; reflexivity.
  - destruct s as [st fs [ps o fit] u]; reflexivity.
Qed.

(** X15: A reset clears the files and the handle and shows the idle screen, but
    keeps the chosen options; it touches nothing of the browser except the
    blob URL it revokes, and a second reset changes nothing more. *)
Theorem reset_keeps_options_and_is_idempotent (s : Session) (w : World) :
  let s' := fst (handleReset s w) in
  let w' := snd (handleReset s w) in
  status s' = IDLE ∧ files s' = [] ∧ pdfBlobUrl s' = None ∧
  options s' = options s ∧
  nextUrl w' = nextUrl w ∧ alerts w' = alerts w ∧
  console w' = console w ∧ downloads w' = downloads w ∧
  handleReset s' w' = (s', w').
Proof.
  cbv zeta. unfold handleReset.
  destruct (pdfBlobUrl s); repeat apply conj; reflexivity.
Qed.

(** X16: [handleConvert] ends in one of three ways: refused, with the session as
    it was and no blob URL created; succeeded, with status [SUCCESS] and one
    new blob URL stored as the handle; or failed, with status
    [FILES_SELECTED], the handle as it was and no blob URL created.  It
    never changes the files or the options, never downloads, and never
    leaves the spinner on. *)
Theorem convert_has_three_outcomes (svc : Services) (s : Session) (w : World) :
  let s' := fst (handleConvert svc s w) in
  let w' := snd (handleConvert svc s w) in
  files s' = files s ∧ options s' = options s ∧ downloads w' = downloads w ∧
  (status s' = CONVERTING → status s = CONVERTING) ∧
  ((s' = s ∧ blobs w' = blobs w ∧ nextUrl w' = nextUrl w) ∨
   (status s' = SUCCESS ∧ pdfBlobUrl s' = Some (nextUrl w) ∧
    nextUrl w' = S (nextUrl w) ∧ is_Some (blobs w' !! nextUrl w) ∧
    alerts w' = alerts w) ∨
   (status s' = FILES_SELECTED ∧ pdfBlobUrl s' = pdfBlobUrl s ∧
    blobs w' = blobs w ∧ nextUrl w' = nextUrl w)).
Proof.
  cbv zeta. unfold handleConvert.
  destruct (decide (length (filteredFiles s) = 0%nat)).
  { cbn. repeat apply conj; try reflexivity; [tauto | left; repeat split]. }
  destruct (jspdf svc) as [pageDims|].
  2: { cbn. repeat apply conj; try reflexivity; [tauto | left; repeat split]. }
  pose proof (buildPdf_world svc pageDims (filteredFiles s) (options s) w)
    as (Hb & Hn & Ha & Hd).
  destruct (buildPdf svc pageDims (filteredFiles s) (options s) w)
    as [[pdf|] w1]; cbn in Hb, Hn, Ha, Hd; cbn.
  - rewrite Hn, Ha, Hd. repeat apply conj; try reflexivity; [discriminate|].
    right; left. repeat apply conj; try reflexivity.
    rewrite lookup_insert_eq. eexists. reflexivity.
  - rewrite Hb, Hn, Hd. repeat apply conj; try reflexivity; [discriminate|].
    right; right. repeat split.
Qed.

(** X17: Every action a screen offers moves the status along an arrow of the
    session's state machine: idle to file list; file list to itself, to idle
    or to success; success to itself or to idle. *)
Theorem offered_actions_follow_the_flow
    (svc : Services) (e : Event) (s : Session) (w : World) :
  offered (status s) e = true →
  Flow.allowed (status s) (status (fst (handle svc e s w))) = true.
Proof.
  intros Hoff.
  destruct e; destruct (status s) eqn:Hst; try discriminate Hoff;
    cbn [handle fst].
  - reflexivity.
  - unfold handleRemoveFile. cbv zeta. case_decide; cbn; rewrite ?Hst; reflexivity.
  - cbn. rewrite Hst. reflexivity.
  - destruct (convert_cases svc s w) as [E | [E | E]]; rewrite E, ?Hst; reflexivity.
  - rewrite Hst. reflexivity.
  - reflexivity.
Qed.

Lemma offered_actions_follow_the_flow_witness :
  Flow.allowed FILES_SELECTED
    (status (fst (handle (Samples.services true true) Convert
                    Samples.mixed emptyWorld))) = true.
Proof.
  apply (offered_actions_follow_the_flow (Samples.services true true) Convert
           Samples.mixed emptyWorld).
  reflexivity.
Defined.

Lemma filteredFiles_setStatus st s :
  filteredFiles (setStatus st s) = filteredFiles s.
Proof. reflexivity. Qed.

Lemma filteredFiles_setPdfBlobUrl u s :
  filteredFiles (setPdfBlobUrl u s) = filteredFiles s.
Proof. reflexivity. Qed.

Lemma handle_settled svc e s w :
  offered (status s) e = true → Flow.settled svc s w →
  Flow.settled svc (fst (handle svc e s w)) (snd (handle svc e s w)).
Proof.
  intros Hoff (Hspin & Hidle & Hlist & Hdone).
  destruct e; destruct (status s) eqn:Hst; try discriminate Hoff;
    cbn [handle fst snd].
  - (* FilesAdded *)
    destruct (Hidle eq_refl) as [_ Hu].
    unfold Flow.settled, handleFilesAdded. cbn.
    repeat apply conj; try discriminate. intros _. exact Hu.
  - (* RemoveFile *)
    pose proof (Hlist eq_refl) as Hu.
    unfold Flow.settled, handleRemoveFile. cbv zeta.
    destruct (decide (length (delete index (files s)) = 0%nat)) as [Hz|Hnz]; cbn.
    + repeat apply conj; try discriminate.
      intros _. split; [|exact Hu].
      destruct (delete index (files s)); [reflexivity | discriminate Hz].
    + rewrite Hst. repeat apply conj; try discriminate. intros _. exact Hu.
  - (* OptionChange *)
    pose proof (Hlist eq_refl) as Hu.
    unfold Flow.settled, handleOptionChange. cbn. rewrite Hst.
    repeat apply conj; try discriminate. intros _. exact Hu.
  - (* Convert *)
    pose proof (Hlist eq_refl) as Hu.
    unfold handleConvert.
    destruct (decide (length (filteredFiles s) = 0%nat)) as [Hz|Hnz].
    { cbn. unfold Flow.settled. rewrite Hst.
      repeat apply conj; try discriminate. intros _. exact Hu. }
    destruct (jspdf svc) as [pageDims|] eqn:Hlib.
    2: { cbn. unfold Flow.settled. rewrite Hst.
         repeat apply conj; try discriminate. intros _. exact Hu. }
    destruct (filteredFiles s) as [|first others] eqn:Hfs; [contradiction|].
    destruct (buildPdf svc pageDims (first :: others) (options s) w)
      as [[pdf|] w1] eqn:Hrun.
    + apply buildPdf_normal in Hrun as [-> _].
      unfold Flow.settled.
      cbn -[filteredFiles document setStatus setPdfBlobUrl].
      rewrite filteredFiles_setStatus, filteredFiles_setPdfBlobUrl,
        filteredFiles_setStatus, Hfs.
      cbn -[document].
      repeat apply conj; try discriminate. intros _.
      split; [discriminate|].
      exists (nextUrl w1), pageDims.
      repeat apply conj; [exact Hlib | reflexivity | apply lookup_insert_eq].
    + unfold Flow.settled. cbn.
      repeat apply conj; try discriminate. intros _. exact Hu.
  - (* Download *)
    unfold Flow.settled. rewrite Hst.
    repeat apply conj; try discriminate. intros _.
    destruct (Hdone eq_refl) as (Hne & url & pageDims & Hlib & Hu & Hb).
    split; [exact Hne|]. exists url, pageDims.
    repeat apply conj; try assumption.
    unfold handleDownload. rewrite Hu.
    destruct (filteredFiles s) as [|? [|? ?]]; exact Hb.
  - (* Reset *)
    unfold Flow.settled, handleReset. cbn.
    repeat apply conj; try discriminate. intros _. split; reflexivity.
Qed.

Lemma run_settled svc es : ∀ s w,
  Flow.settled svc s w →
  Flow.settled svc (fst (run svc es s w)) (snd (run svc es s w)).
Proof.
  induction es as [|e es IH]; intros s w Hinv; cbn [run]; [exact Hinv|].
  destruct (offered (status s) e) eqn:Hoff; [|apply IH; exact Hinv].
  pose proof (handle_settled svc e s w Hoff Hinv) as Hstep.
  destruct (handle svc e s w) as [s' w']. apply IH. exact Hstep.
Qed.

(** X18: After any sequence of user actions: the spinner is off; on the idle
    screen the selection is empty and no handle is stored; and on the
    success screen the selection holds a supported file and the stored
    handle resolves to the document of the files and options now in the
    session, so the download is never stale. *)
Theorem success_screen_holds_current_document
    (svc : Services) (es : list Event) :
  let s := fst (run svc es initialSession emptyWorld) in
  let w := snd (run svc es initialSession emptyWorld) in
  status s ≠ CONVERTING ∧
  (status s = IDLE → files s = [] ∧ pdfBlobUrl s = None) ∧
  (status s = SUCCESS →
     filteredFiles s ≠ [] ∧
     ∃ (url : nat) (pageDims : PageSize → Orientation → Q * Q),
       jspdf svc = Some pageDims ∧ pdfBlobUrl s = Some url ∧
       blobs w !! url =
         Some (document svc (imageFit (options s))
                 (pageDims (pageSize (options s)) (orientation (options s)))
                 (filteredFiles s))).
Proof.
  cbv zeta.
  destruct (run_settled svc es initialSession emptyWorld)
    as (Hspin & Hidle & _ & Hdone).
  { unfold Flow.settled. cbn.
    repeat apply conj; try discriminate. intros _. split; reflexivity. }
  repeat apply conj; assumption.
Qed.

End SessionMore.

(** ** Further properties of the conversion loop *)

Module PipelineMore.

Import Dom App Run LoopFacts ConversionFacts.

Section WithServices.

Context (svc : Services).

(** What a decoded answer tells about the file and the services. *)
Lemma answer_Decoded file imageData imageFormat img :
  answer svc file = Decoded imageData imageFormat img →
  loadImage svc imageData = Some img ∧
  ((type file = "image/jpeg" ∧ imageFormat = "JPEG" ∧
    fileToBase64 svc file = Some imageData) ∨
   (type file = "image/webp" ∧ imageFormat = "PNG" ∧
    ∃ raw webpImg,
      fileToBase64 svc file = Some raw ∧ loadImage svc raw = Some webpImg ∧
      imageData =
        toDataURL svc
          (drawImage (createCanvas (width webpImg) (height webpImg)) webpImg)) ∨
   (type file ≠ "image/jpeg" ∧ type file ≠ "image/webp" ∧
    imageFormat = "PNG" ∧ fileToBase64 svc file = Some imageData)).
Proof.
  unfold answer, decoded. intros H.
  destruct (fileToBase64 svc file) as [raw|]; [|discriminate H].
  destruct (decide (type file = "image/jpeg")) as [Hj|Hj].
  { destruct (loadImage svc raw) as [im|] eqn:Hd; [|discriminate H].
    injection H as <- <- <-. split; [exact Hd|]. left. repeat split. exact Hj. }
  destruct (decide (type file = "image/webp")) as [Hw|Hw].
  - destruct (loadImage svc raw) as [webpImg|] eqn:Hd; [|discriminate H].
    destruct (getContext svc _); [|discriminate H].
    destruct (loadImage svc (toDataURL svc _)) as [im|] eqn:Hd2;
      [|discriminate H].
    injection H as <- <- <-. split; [exact Hd2|]. right; left.
    repeat split; [exact Hw|]. exists raw, webpImg. repeat split. exact Hd.
  - destruct (loadImage svc raw) as [im|] eqn:Hd; [|discriminate H].
    injection H as <- <- <-. split; [exact Hd|]. right; right.
    repeat split; assumption.
Qed.

(** The pages of a document the [try] block has built. *)
Lemma built_pages pageDims fs opts w pdf w1 :
  buildPdf svc pageDims fs opts w = (Normal pdf, w1) →
  JsPdf.pageWidth pdf = fst (pageDims (pageSize opts) (orientation opts)) ∧
  JsPdf.pageHeight pdf = snd (pageDims (pageSize opts) (orientation opts)) ∧
  (fs ≠ [] →
   JsPdf.pages pdf =
     map (pageOf svc (imageFit opts)
            (fst (pageDims (pageSize opts) (orientation opts)))
            (snd (pageDims (pageSize opts) (orientation opts)))) fs) ∧
  (∀ f, f ∈ fs → failsb svc f = false).
Proof.
  intros Hrun. destruct fs as [|first others].
  - unfold buildPdf in Hrun. cbn in Hrun. injection Hrun as <- _.
    repeat apply conj; try reflexivity; [congruence | intros f Hf; inversion Hf].
  - apply buildPdf_normal in Hrun as [-> Hok].
    repeat apply conj; try reflexivity.
    intros f Hf. rewrite forallb_forall in Hok.
    apply list_elem_of_In in Hf. apply Hok in Hf.
    apply negb_true_iff in Hf. exact Hf.
Qed.

Lemma built_page_of pageDims fs opts w pdf w1 page :
  buildPdf svc pageDims fs opts w = (Normal pdf, w1) →
  page ∈ JsPdf.pages pdf →
  page = [] ∨
  ∃ f, f ∈ fs ∧
    page = pageOf svc (imageFit opts) (JsPdf.pageWidth pdf) (JsPdf.pageHeight pdf) f.
Proof.
  intros Hrun Hpage.
  destruct (built_pages pageDims fs opts w pdf w1 Hrun) as (Hw & Hh & Hp & _).
  destruct fs as [|first others].
  - unfold buildPdf in Hrun. cbn in Hrun. injection Hrun as <- _.
    cbn in Hpage. apply list_elem_of_singleton in Hpage. left. exact Hpage.
  - rewrite Hp in Hpage by discriminate.
    apply list_elem_of_fmap in Hpage as (f & -> & Hf).
    right. exists f. rewrite Hw, Hh. split; [exact Hf | reflexivity].
Qed.


Lemma pageOf_length mode pw ph f :
  failsb svc f = false →
  (length (pageOf svc mode pw ph f)
   + Flow.skipped svc [f] = 1)%nat.
Proof.
  unfold failsb, pageOf, Flow.skipped. cbn [List.filter].
  destruct (answer svc f); intros H; try discriminate H; reflexivity.
Qed.

Lemma skipped_cons f fs :
  Flow.skipped svc (f :: fs) = (Flow.skipped svc [f] + Flow.skipped svc fs)%nat.
Proof.
  unfold Flow.skipped. cbn [List.filter].
  destruct (answer svc f); reflexivity.
Qed.

Lemma placed_count mode pw ph fs :
  (∀ f, f ∈ fs → failsb svc f = false) →
  (length (concat (map (pageOf svc mode pw ph) fs)) + Flow.skipped svc fs
   = length fs)%nat.
Proof.
  induction fs as [|f fs IH]; intros Hok; [reflexivity|].
  cbn [map concat]. rewrite length_app, skipped_cons. cbn [length].
  pose proof (pageOf_length mode pw ph f (Hok f ltac:(left))) as H1.
  pose proof (IH (λ g Hg, Hok g ltac:(right; exact Hg))) as H2.
  lia.
Qed.

(** X20: A document the conversion has built over a non-empty selection holds at
    most one image per page, and as many images in all as there are files
    that were not skipped for lack of a drawing surface. *)
Theorem one_image_per_page_except_skipped
    (pageDims : PageSize → Orientation → Q * Q) (fs : list File)
    (opts : ConversionOptions) (w w1 : World) (pdf : JsPdf.jsPDF) :
  fs ≠ [] →
  buildPdf svc pageDims fs opts w = (Normal pdf, w1) →
  (∀ page, page ∈ JsPdf.pages pdf → (length page ≤ 1)%nat) ∧
  (length (concat (JsPdf.pages pdf)) + Flow.skipped svc fs = length fs)%nat.
Proof.
  intros Hne Hrun.
  destruct (built_pages pageDims fs opts w pdf w1 Hrun) as (_ & _ & Hp & Hok).
  split.
  - intros page Hpage.
    destruct (built_page_of pageDims fs opts w pdf w1 page Hrun Hpage)
      as [-> | (f & _ & ->)]; [cbn; lia|].
    unfold pageOf. destruct (answer svc f); cbn; lia.
  - rewrite (Hp Hne). apply placed_count. exact Hok.
Qed.

(** X21: The format tag and the data of an embedded image follow the type of its
    file: a JPEG file is embedded as read with the tag JPEG; a WebP file is
    embedded with the tag PNG and the data drawn from a canvas of the decoded
    size; any other file is embedded as read with the tag PNG. *)
Theorem embedded_format_follows_type
    (pageDims : PageSize → Orientation → Q * Q) (fs : list File)
    (opts : ConversionOptions) (w w1 : World) (pdf : JsPdf.jsPDF)
    (i : nat) (f : File) (img : JsPdf.PlacedImage) :
  buildPdf svc pageDims fs opts w = (Normal pdf, w1) →
  fs !! i = Some f →
  JsPdf.pages pdf !! i = Some [img] →
  (type f = "image/jpeg" ∧ JsPdf.imageFormat img = "JPEG" ∧
   fileToBase64 svc f = Some (JsPdf.imageData img)) ∨
  (type f = "image/webp" ∧ JsPdf.imageFormat img = "PNG" ∧
   ∃ raw webpImg,
     fileToBase64 svc f = Some raw ∧ loadImage svc raw = Some webpImg ∧
     JsPdf.imageData img =
       toDataURL svc
         (drawImage (createCanvas (width webpImg) (height webpImg)) webpImg)) ∨
  (type f ≠ "image/jpeg" ∧ type f ≠ "image/webp" ∧
   JsPdf.imageFormat img = "PNG" ∧
   fileToBase64 svc f = Some (JsPdf.imageData img)).
Proof.
  intros Hrun Hf Hpage.
  destruct (built_pages pageDims fs opts w pdf w1 Hrun) as (_ & _ & Hp & _).
  rewrite Hp in Hpage by (intros E; rewrite E in Hf; discriminate Hf).
  rewrite list_lookup_fmap, Hf in Hpage. cbn in Hpage.
  injection Hpage as Hpage. unfold pageOf in Hpage.
  destruct (answer svc f) as [| | |data fmt im] eqn:Ha; try discriminate Hpage.
  injection Hpage as <-.
  destruct (answer_Decoded f data fmt im Ha) as [_ H]. exact H.
Qed.

Lemma convertLoop_console mode rest : ∀ i pdf w pdf' w',
  convertLoop svc mode i rest pdf w = (Normal pdf', w') →
  console w' =
    console w ++ replicate (Flow.skipped svc rest)
                   "Could not get canvas context for WebP conversion".
Proof.
  induction rest as [|f rest IH]; intros i pdf w pdf' w' Hrun.
  - cbn in Hrun. injection Hrun as _ <-. cbn. rewrite app_nil_r. reflexivity.
  - cbn [convertLoop] in Hrun. unfold mbind, M_bind in Hrun.
    rewrite convertFile_answer in Hrun. cbv zeta in Hrun.
    rewrite skipped_cons. unfold Flow.skipped at 1. cbn [List.filter].
    destruct (answer svc f); try discriminate Hrun.
    + apply IH in Hrun. rewrite Hrun. cbn. rewrite <- app_assoc. reflexivity.
    + apply IH in Hrun. rewrite Hrun. reflexivity.
Qed.

(** X23: A conversion that succeeds shows no alert and writes to the console one
    diagnostic for every WebP image skipped for lack of a drawing surface,
    and nothing else. *)
Theorem success_logs_one_line_per_skipped_image
    (pageDims : PageSize → Orientation → Q * Q) (s : Session) (w : World) :
  jspdf svc = Some pageDims →
  filteredFiles s ≠ [] →
  status (fst (handleConvert svc s w)) = SUCCESS →
  console (snd (handleConvert svc s w)) =
    console w ++ replicate (Flow.skipped svc (filteredFiles s))
                   "Could not get canvas context for WebP conversion" ∧
  alerts (snd (handleConvert svc s w)) = alerts w.
Proof.
  intros Hlib Hne.
  rewrite (handleConvert_started svc pageDims s w Hlib Hne).
  pose proof (buildPdf_world svc pageDims (filteredFiles s) (options s) w)
    as (_ & _ & Ha & _).
  destruct (buildPdf svc pageDims (filteredFiles s) (options s) w)
    as [[pdf|] w1] eqn:Hrun; cbn in Ha; cbn; intros Hst; [|discriminate Hst].
  split; [|exact Ha].
  unfold buildPdf in Hrun. eapply convertLoop_console. exact Hrun.
Qed.

(** X22: Pages are made file by file: when a conversion of a selection succeeds,
    the conversion of the selection without its i-th file succeeds too, and
    its document is the first one without page i. *)
Theorem removing_a_file_removes_its_page
    (pageDims : PageSize → Orientation → Q * Q) (fs : list File)
    (opts : ConversionOptions) (w w1 : World) (pdf : JsPdf.jsPDF) (i : nat) :
  buildPdf svc pageDims fs opts w = (Normal pdf, w1) →
  (1 < length fs)%nat →
  ∃ pdf' w1',
    buildPdf svc pageDims (delete i fs) opts w = (Normal pdf', w1') ∧
    JsPdf.pages pdf' = delete i (JsPdf.pages pdf).
Proof.
  intros Hrun Hlen.
  destruct (built_pages pageDims fs opts w pdf w1 Hrun) as (_ & _ & Hp & Hok).
  assert (Hne : fs ≠ []) by (intros E; rewrite E in Hlen; cbn in Hlen; lia).
  assert (Hlen' : (0 < length (delete i fs))%nat).
  { destruct (decide (i < length fs)%nat) as [Hi|Hi].
    - rewrite length_delete by (apply lookup_lt_is_Some_2; exact Hi). lia.
    - rewrite SessionMore.delete_beyond by lia. lia. }
  assert (Hok' : forallb (λ f, negb (failsb svc f)) (delete i fs) = true).
  { apply no_failing_member. intros f Hf. apply Hok.
    eapply list_elem_of_delete_inv. exact Hf. }
  destruct (delete i fs) as [|first others] eqn:Hdel; [cbn in Hlen'; lia|].
  destruct (buildPdf_completes svc pageDims first others opts w Hok')
    as [w1' Hrun'].
  eexists _, w1'. split; [exact Hrun'|].
  rewrite (Hp Hne). unfold document. cbn [JsPdf.pages].
  rewrite <- Hdel.
  exact (list_fmap_delete _ fs i).
Qed.

End WithServices.


Lemma one_image_per_page_except_skipped_witness :
  let svc := Samples.services false true in
  let pdf := document svc fit (210, 297)
               [Samples.png1; Samples.webp1; Samples.jpg1] in
  (∀ page, page ∈ JsPdf.pages pdf → (length page ≤ 1)%nat) ∧
  (length (concat (JsPdf.pages pdf))
   + Flow.skipped svc (filteredFiles Samples.mixed)
   = length (filteredFiles Samples.mixed))%nat.
Proof.
  cbv zeta.
  apply (one_image_per_page_except_skipped (Samples.services false true)
           Samples.a4mm (filteredFiles Samples.mixed) (options Samples.mixed)
           emptyWorld
           (console_error "Could not get canvas context for WebP conversion"
              emptyWorld)).
  - vm_compute. discriminate.
  - vm_compute. reflexivity.
Defined.

Lemma embedded_format_follows_type_witness :
  let svc := Samples.services true true in
  let img := placed fit 210 297 "data:canvas.png" "PNG"
               {| src := "data:canvas.png"; width := 800; height := 600 |} in
  (Dom.type Samples.webp1 = "image/jpeg" ∧ JsPdf.imageFormat img = "JPEG" ∧
   fileToBase64 svc Samples.webp1 = Some (JsPdf.imageData img)) ∨
  (Dom.type Samples.webp1 = "image/webp" ∧ JsPdf.imageFormat img = "PNG" ∧
   ∃ raw webpImg,
     fileToBase64 svc Samples.webp1 = Some raw ∧
     loadImage svc raw = Some webpImg ∧
     JsPdf.imageData img =
       toDataURL svc
         (drawImage (createCanvas (width webpImg) (height webpImg)) webpImg)) ∨
  (Dom.type Samples.webp1 ≠ "image/jpeg" ∧ Dom.type Samples.webp1 ≠ "image/webp" ∧
   JsPdf.imageFormat img = "PNG" ∧
   fileToBase64 svc Samples.webp1 = Some (JsPdf.imageData img)).
Proof.
  cbv zeta.
  apply (embedded_format_follows_type (Samples.services true true)
           Samples.a4mm (filteredFiles Samples.mixed) (options Samples.mixed)
           emptyWorld emptyWorld
           (document (Samples.services true true) fit (210, 297)
              [Samples.png1; Samples.webp1; Samples.jpg1]) 1).
  - vm_compute. reflexivity.
  - reflexivity.
  - reflexivity.
Defined.

Lemma removing_a_file_removes_its_page_witness :
  let svc := Samples.services true true in
  let pdf := document svc fit (210, 297)
               [Samples.png1; Samples.webp1; Samples.jpg1] in
  ∃ pdf' w1',
    buildPdf svc Samples.a4mm (delete 1%nat (filteredFiles Samples.mixed))
      (options Samples.mixed) emptyWorld = (Normal pdf', w1') ∧
    JsPdf.pages pdf' = delete 1%nat (JsPdf.pages pdf).
Proof.
  cbv zeta.
  apply (removing_a_file_removes_its_page (Samples.services true true)
           Samples.a4mm (filteredFiles Samples.mixed) (options Samples.mixed)
           emptyWorld emptyWorld).
  - vm_compute. reflexivity.
  - change (1 < 3)%nat. lia.
Defined.

Lemma success_logs_one_line_per_skipped_image_witness :
  let svc := Samples.services false true in
  console (snd (handleConvert svc Samples.mixed emptyWorld)) =
    console emptyWorld
      ++ replicate (Flow.skipped svc (filteredFiles Samples.mixed))
           "Could not get canvas context for WebP conversion" ∧
  alerts (snd (handleConvert svc Samples.mixed emptyWorld)) = alerts emptyWorld.
Proof.
  cbv zeta.
  apply (success_logs_one_line_per_skipped_image (Samples.services false true)
           Samples.a4mm Samples.mixed emptyWorld).
  - reflexivity.
  - vm_compute. discriminate.
  - vm_compute. reflexivity.
Defined.

End PipelineMore.

(** ** Properties of the download *)

Module DownloadMore.

Import Dom App.
Import FileName.

Lemma list_ascii_of_string_app (a b : string) :
  String.list_ascii_of_string (a +:+ b)
  = String.list_ascii_of_string a ++ String.list_ascii_of_string b.
Proof.
  induction a as [|c a IH]; [reflexivity|].
  change (c :: String.list_ascii_of_string (a +:+ b)
          = c :: (String.list_ascii_of_string a ++ String.list_ascii_of_string b)).
  f_equal. exact IH.
Qed.

Lemma lower_chars (ext e : string) :
  lower ext = e →
  map lowerAscii (String.list_ascii_of_string ext) = String.list_ascii_of_string e.
Proof.
  intros <-. unfold lower.
  rewrite String.list_ascii_of_string_of_list_ascii. reflexivity.
Qed.

Lemma stripEnding_accepted (ext : string) (rest : list Ascii.ascii) :
  lower ext ∈ [".png"; ".jpg"; ".jpeg"; ".webp"] →
  stripEnding endings (rev (String.list_ascii_of_string ext) ++ rest) = Some rest.
Proof.
  intros Hext. apply list_elem_of_In in Hext. cbn in Hext.
  destruct Hext as [H | [H | [H | [H | []]]]];
    symmetry in H; apply lower_chars in H;
    destruct (String.list_ascii_of_string ext) as [|c1 [|c2 [|c3 [|c4 [|c5 [|c6 l]]]]]];
    try discriminate H; cbn in H;
    injection H as H; intros;
    cbn; unfold stripPrefixCI;
    repeat match goal with
           | E : lowerAscii _ = _ |- _ => rewrite E; clear E
           end;
    reflexivity.
Qed.

Lemma replaceExtension_accepted (base ext : string) :
  lower ext ∈ [".png"; ".jpg"; ".jpeg"; ".webp"] →
  replaceExtension (base +:+ ext) = base +:+ ".pdf".
Proof.
  intros Hext. unfold replaceExtension.
  rewrite list_ascii_of_string_app, rev_app_distr.
  rewrite (stripEnding_accepted ext _ Hext).
  rewrite rev_involutive, String.string_of_list_ascii_of_string. reflexivity.
Qed.

Lemma replaceExtension_pdf (base : string) :
  replaceExtension (base +:+ ".pdf") = base +:+ ".pdf".
Proof.
  unfold replaceExtension.
  rewrite list_ascii_of_string_app, rev_app_distr. reflexivity.
Qed.

(** X24: The download name of a file whose name ends in [.png], [.jpg], [.jpeg]
    or [.webp], in any mix of upper and lower case, is the name with that
    ending replaced by [.pdf]. *)
Theorem image_ending_becomes_pdf (base ext : string) :
  lower ext ∈ [".png"; ".jpg"; ".jpeg"; ".webp"] →
  replaceExtension (base +:+ ext) = base +:+ ".pdf".
Proof. apply replaceExtension_accepted. Qed.

Lemma image_ending_becomes_pdf_witness :
  replaceExtension ("Holiday.2024" +:+ ".JpEg") = "Holiday.2024" +:+ ".pdf".
Proof.
  apply (image_ending_becomes_pdf "Holiday.2024" ".JpEg").
  apply list_elem_of_further, list_elem_of_further, list_elem_of_here.
Defined.

(** X25: Replacing the ending a second time changes nothing: the result either
    ends in [.pdf] or is a name that had no image ending. *)
Theorem replacing_ending_twice_is_once (name : string) :
  replaceExtension (replaceExtension name) = replaceExtension name.
Proof.
  unfold replaceExtension at 2 3.
  destruct (stripEnding endings (rev (String.list_ascii_of_string name)))
    as [rest|] eqn:E.
  - apply replaceExtension_pdf.
  - unfold replaceExtension. rewrite E. reflexivity.
Qed.

(** X26: With a stored handle, [handleDownload] starts exactly one download of
    that handle and leaves the blob URL store untouched, so the download can
    be repeated.  A single selected image gives its name with the image
    ending replaced by [.pdf]; any other number of images gives
    [converted-images.pdf]. *)
Theorem download_is_named_after_single_image
    (svc : Services) (s : Session) (w : World) (url : nat) :
  pdfName svc = replaceExtension →
  pdfBlobUrl s = Some url →
  blobs (handleDownload svc s w) = blobs w ∧
  (∃ filename, downloads (handleDownload svc s w) = downloads w ++ [(url, filename)]) ∧
  (∀ f base ext,
     filteredFiles s = [f] → name f = base +:+ ext →
     lower ext ∈ [".png"; ".jpg"; ".jpeg"; ".webp"] →
     downloads (handleDownload svc s w) = downloads w ++ [(url, base +:+ ".pdf")]) ∧
  (length (filteredFiles s) ≠ 1%nat →
     downloads (handleDownload svc s w)
       = downloads w ++ [(url, "converted-images.pdf")]).
Proof.
  intros Hname Hurl. unfold handleDownload. rewrite Hurl.
  repeat apply conj.
  - reflexivity.
  - eexists. reflexivity.
  - intros f base ext Hone Hf Hext.
    rewrite Hone, Hname, Hf, (replaceExtension_accepted base ext Hext).
    reflexivity.
  - intros Hlen. destruct (filteredFiles s) as [|f [|g fs]];
      [reflexivity | cbn in Hlen; lia | reflexivity].
Qed.

Lemma download_is_named_after_single_image_witness :
  let svc := Flow.browser true true in
  let s := fst (handleConvert svc (Samples.selected [Samples.png1]) emptyWorld) in
  let w := snd (handleConvert svc (Samples.selected [Samples.png1]) emptyWorld) in
  pdfBlobUrl s = Some 0%nat ∧
  downloads (handleDownload svc s w) = [(0%nat, "one.pdf")].
Proof.
  cbv zeta. split; [reflexivity|].
  destruct (download_is_named_after_single_image (Flow.browser true true)
              (fst (handleConvert (Flow.browser true true)
                      (Samples.selected [Samples.png1]) emptyWorld))
              (snd (handleConvert (Flow.browser true true)
                      (Samples.selected [Samples.png1]) emptyWorld))
              0 eq_refl eq_refl) as (_ & _ & Hone & _).
  apply (Hone Samples.png1 "one" ".png").
  - reflexivity.
  - reflexivity.
  - apply list_elem_of_here.
Defined.

End DownloadMore.
